(** * The command buffer helper (gpu/command_buffer/client/cmd_buffer_helper.cc)

    A shallow embedding of [CommandBufferHelper]: the client side of the
    command-buffer ring.  The helper owns the [put_] cursor, reads the
    service's [get] cursor through the abstract [CommandBuffer], and hands
    out contiguous runs of ring entries.

    Conventions of the embedding.
    - [int32] values are integers of [Z]; where the source adds or
      subtracts, the two's complement wrap-around is written out (signed
      overflow is undefined in C++; this is what the compiled code does).
      Division and remainder truncate towards zero, as in C++.
    - The ring memory itself is not modelled: what the helper writes into
      it is recorded in the trace, with the offset it is written at.
    - The [CommandBuffer] (the service side) is an interface: a type class
      over an arbitrary state type, so every theorem holds for every
      behaviour of the service.
    - Every request sent to the [CommandBuffer], every record written into
      the ring and the fatal log line are appended to a trace.
    - Loops that wait for the service take fuel; [None] means the fuel ran
      out before the loop ended.
    - [DCHECK]s compile to nothing in release builds and are left out. *)

From Stdlib Require Import ZArith List Bool Lia.
Import ListNotations.
Open Scope Z_scope.

(** ** Machine integers *)

Definition int32 (z : Z) : Z := (z + 2 ^ 31) mod 2 ^ 32 - 2 ^ 31.
Definition uint32 (z : Z) : Z := z mod 2 ^ 32.

Definition int32_range (z : Z) : Prop := - 2 ^ 31 <= z < 2 ^ 31.

(** ** error::Error and CommandBuffer::State *)

Module error.
(** Modelled from the spec: the error enumeration lives in
    gpu/command_buffer/common/constants.h, which is not part of the
    sources at hand; the service reports an "error code". *)
Definition Error := Z.
(** Modelled from the spec: "a non-zero error code" is an error, so zero is
    the value of [kNoError]. *)
Definition kNoError : Error := 0.
(** Modelled from the spec: [error::IsError] is declared in the same absent
    header; an error is "a non-zero error code". *)
Definition IsError (e : Error) : bool := negb (e =? kNoError).
End error.

(** The fields of [CommandBuffer::State] the helper reads. *)
Record State : Type := mkState {
  num_entries : Z;
  get_offset_ : Z;
  put_offset : Z;
  token : Z;
  error_ : error.Error
}.

(** The abstract [CommandBuffer].  Requests change the state of the service
    side; [GetLastState], [GetLastToken] and [GetLastError] only read what
    the [CommandBuffer] has cached.  [clock] is the C library's [clock()],
    kept with the environment since it is the only other thing the helper
    reads from outside. *)
Class CommandBuffer (C : Type) : Type := {
  CreateTransferBuffer : Z -> C -> Z * C;
  DestroyTransferBuffer : Z -> C -> C;
  SetGetBuffer : Z -> C -> C;
  GetState : C -> State * C;
  GetLastState : C -> State;
  GetLastToken : C -> Z;
  GetLastError : C -> error.Error;
  cb_Flush : Z -> C -> C;
  cb_FlushSync : Z -> Z -> C -> State * C;
  clock : C -> Z * C
}.

(** ** Constants of headers that are not part of the sources at hand

    [kAutoFlushSmall], [kAutoFlushBig] (cmd_buffer_helper.h),
    [CommandHeader::kMaxSize] (cmd_buffer_common.h),
    [sizeof(CommandBufferEntry)], the number of entries of a
    [cmd::SetToken] and [kPeriodicFlushDelay * CLOCKS_PER_SEC] are taken as
    parameters. *)
Record Constants : Type := mkConstants {
  kAutoFlushSmall : Z;
  kAutoFlushBig : Z;
  kMaxSize : Z;
  sizeof_CommandBufferEntry : Z;
  SetToken_entries : Z;
  kPeriodicFlushDelay_clocks : Z
}.

(** ** The helper's fields *)

Record Helper : Type := mkHelper {
  ring_buffer_id_ : Z;
  ring_buffer_size_ : Z;
  total_entry_count_ : Z;
  immediate_entry_count_ : Z;
  token_ : Z;
  put_ : Z;
  last_put_sent_ : Z;
  usable_ : bool;
  context_lost_ : bool;
  flush_automatically_ : bool;
  last_flush_time_ : Z;
  flush_generation_ : Z
}.

(** [CommandBufferHelper::CommandBufferHelper].  [flush_generation_] is not
    in the initialiser list: it starts with whatever value the memory
    holds. *)
Definition new_helper (flush_generation : Z) : Helper :=
  {| ring_buffer_id_ := -1;
     ring_buffer_size_ := 0;
     total_entry_count_ := 0;
     immediate_entry_count_ := 0;
     token_ := 0;
     put_ := 0;
     last_put_sent_ := 0;
     usable_ := true;
     context_lost_ := false;
     flush_automatically_ := true;
     last_flush_time_ := 0;
     flush_generation_ := flush_generation |}.

Definition set_ring_buffer_id_ (v : Z) (h : Helper) : Helper :=
  mkHelper v (ring_buffer_size_ h) (total_entry_count_ h)
    (immediate_entry_count_ h) (token_ h) (put_ h) (last_put_sent_ h)
    (usable_ h) (context_lost_ h) (flush_automatically_ h)
    (last_flush_time_ h) (flush_generation_ h).

Definition set_ring_buffer_size_ (v : Z) (h : Helper) : Helper :=
  mkHelper (ring_buffer_id_ h) v (total_entry_count_ h)
    (immediate_entry_count_ h) (token_ h) (put_ h) (last_put_sent_ h)
    (usable_ h) (context_lost_ h) (flush_automatically_ h)
    (last_flush_time_ h) (flush_generation_ h).

Definition set_total_entry_count_ (v : Z) (h : Helper) : Helper :=
  mkHelper (ring_buffer_id_ h) (ring_buffer_size_ h) v
    (immediate_entry_count_ h) (token_ h) (put_ h) (last_put_sent_ h)
    (usable_ h) (context_lost_ h) (flush_automatically_ h)
    (last_flush_time_ h) (flush_generation_ h).

Definition set_immediate_entry_count_ (v : Z) (h : Helper) : Helper :=
  mkHelper (ring_buffer_id_ h) (ring_buffer_size_ h) (total_entry_count_ h)
    v (token_ h) (put_ h) (last_put_sent_ h)
    (usable_ h) (context_lost_ h) (flush_automatically_ h)
    (last_flush_time_ h) (flush_generation_ h).

Definition set_token_ (v : Z) (h : Helper) : Helper :=
  mkHelper (ring_buffer_id_ h) (ring_buffer_size_ h) (total_entry_count_ h)
    (immediate_entry_count_ h) v (put_ h) (last_put_sent_ h)
    (usable_ h) (context_lost_ h) (flush_automatically_ h)
    (last_flush_time_ h) (flush_generation_ h).

Definition set_put_ (v : Z) (h : Helper) : Helper :=
  mkHelper (ring_buffer_id_ h) (ring_buffer_size_ h) (total_entry_count_ h)
    (immediate_entry_count_ h) (token_ h) v (last_put_sent_ h)
    (usable_ h) (context_lost_ h) (flush_automatically_ h)
    (last_flush_time_ h) (flush_generation_ h).

Definition set_last_put_sent_ (v : Z) (h : Helper) : Helper :=
  mkHelper (ring_buffer_id_ h) (ring_buffer_size_ h) (total_entry_count_ h)
    (immediate_entry_count_ h) (token_ h) (put_ h) v
    (usable_ h) (context_lost_ h) (flush_automatically_ h)
    (last_flush_time_ h) (flush_generation_ h).

Definition set_usable_ (v : bool) (h : Helper) : Helper :=
  mkHelper (ring_buffer_id_ h) (ring_buffer_size_ h) (total_entry_count_ h)
    (immediate_entry_count_ h) (token_ h) (put_ h) (last_put_sent_ h)
    v (context_lost_ h) (flush_automatically_ h)
    (last_flush_time_ h) (flush_generation_ h).

Definition set_context_lost_ (v : bool) (h : Helper) : Helper :=
  mkHelper (ring_buffer_id_ h) (ring_buffer_size_ h) (total_entry_count_ h)
    (immediate_entry_count_ h) (token_ h) (put_ h) (last_put_sent_ h)
    (usable_ h) v (flush_automatically_ h)
    (last_flush_time_ h) (flush_generation_ h).

Definition set_flush_automatically_ (v : bool) (h : Helper) : Helper :=
  mkHelper (ring_buffer_id_ h) (ring_buffer_size_ h) (total_entry_count_ h)
    (immediate_entry_count_ h) (token_ h) (put_ h) (last_put_sent_ h)
    (usable_ h) (context_lost_ h) v
    (last_flush_time_ h) (flush_generation_ h).

Definition set_last_flush_time_ (v : Z) (h : Helper) : Helper :=
  mkHelper (ring_buffer_id_ h) (ring_buffer_size_ h) (total_entry_count_ h)
    (immediate_entry_count_ h) (token_ h) (put_ h) (last_put_sent_ h)
    (usable_ h) (context_lost_ h) (flush_automatically_ h)
    v (flush_generation_ h).

Definition set_flush_generation_ (v : Z) (h : Helper) : Helper :=
  mkHelper (ring_buffer_id_ h) (ring_buffer_size_ h) (total_entry_count_ h)
    (immediate_entry_count_ h) (token_ h) (put_ h) (last_put_sent_ h)
    (usable_ h) (context_lost_ h) (flush_automatically_ h)
    (last_flush_time_ h) v.

(** ** The trace *)

(** Requests to the [CommandBuffer] (the six calls of the channel contract),
    records written into the ring, and the fatal log line.  [WroteNoop]
    keeps, next to the offset and the skip count of the record, the [get]
    cursor the helper observed when it wrote. *)
Inductive Event : Type :=
| CallCreateTransferBuffer (size : Z)
| CallDestroyTransferBuffer (id : Z)
| CallSetGetBuffer (id : Z)
| CallGetState
| CallFlush (put : Z)
| CallFlushSync (put last_known_get : Z)
| WroteNoop (offset skip observed_get : Z)
| WroteSetToken (offset tok : Z)
| LogFatal.

Definition is_call (e : Event) : bool :=
  match e with
  | WroteNoop _ _ _ | WroteSetToken _ _ | LogFatal => false
  | _ => true
  end.

(** The helper together with its [command_buffer_] and the trace so far. *)
Record World (C : Type) : Type := mkWorld {
  helper : Helper;
  command_buffer_ : C;
  trace : list Event
}.

Arguments mkWorld {C} _ _ _.
Arguments helper {C} _.
Arguments command_buffer_ {C} _.
Arguments trace {C} _.

(** How a call that may hit [LOG(FATAL)] or [CHECK] ends. *)
Inductive Exit : Type := Returned | Aborted.

(** ** The operations of the helper *)

Section CommandBufferHelper.

Context {C : Type} {CB : CommandBuffer C}.
Variable K : Constants.

Definition upd (f : Helper -> Helper) (w : World C) : World C :=
  mkWorld (f (helper w)) (command_buffer_ w) (trace w).

Definition with_command_buffer (c : C) (w : World C) : World C :=
  mkWorld (helper w) c (trace w).

Definition emit (e : Event) (w : World C) : World C :=
  mkWorld (helper w) (command_buffer_ w) (trace w ++ [e]).

(** *** Accessors declared in cmd_buffer_helper.h *)

(** Modelled from the spec: [usable()] is an inline accessor of
    cmd_buffer_helper.h, which is not part of the sources at hand; it is
    the flag [usable_] that the constructor sets and the spec calls
    [usable]. *)
Definition usable (w : World C) : bool := usable_ (helper w).

(** Modelled from the spec: [HaveRingBuffer()] is an inline accessor of the
    absent header; a region is "installed" when [ring_buffer_id_] is not
    the -1 the constructor and [FreeResources] store. *)
Definition HaveRingBuffer (w : World C) : bool :=
  negb (ring_buffer_id_ (helper w) =? -1).

(** Modelled from the spec: [get_offset()] is an inline accessor of the
    absent header; [get] is "cached from service", the cursor of the last
    state the [CommandBuffer] has. *)
Definition get_offset (w : World C) : Z :=
  get_offset_ (GetLastState (command_buffer_ w)).

(** Modelled from the spec: [last_token_read()] is an inline accessor of
    the absent header; "the highest value the service has acknowledged",
    as the [CommandBuffer] has it. *)
Definition last_token_read (w : World C) : Z :=
  GetLastToken (command_buffer_ w).

(** *** CalcImmediateEntries *)

(** The maximum safe contiguous run, lines 56-62. *)
Definition contiguous_entries (curr_get put total : Z) : Z :=
  if curr_get >? put then int32 (int32 (curr_get - put) - 1)
  else int32 (int32 (total - put) - (if curr_get =? 0 then 1 else 0)).

(** The divisor and the limit of lines 66-68. *)
Definition flush_divisor (curr_get last_put_sent : Z) : Z :=
  if curr_get =? last_put_sent then kAutoFlushSmall K else kAutoFlushBig K.

Definition flush_limit (total divisor : Z) : Z := Z.quot total divisor.

(** The entries written and not yet sent, lines 70-71. *)
Definition pending_entries (put total last_put_sent : Z) : Z :=
  Z.rem (int32 (int32 (put + total) - last_put_sent)) total.

Definition CalcImmediateEntries (waiting_count : Z) (w : World C) : World C :=
  let h := helper w in
  if negb (usable w) || negb (HaveRingBuffer w) then
    upd (set_immediate_entry_count_ 0) w
  else
    let curr_get := get_offset w in
    let immediate :=
      contiguous_entries curr_get (put_ h) (total_entry_count_ h) in
    if flush_automatically_ h then
      let limit :=
        flush_limit (total_entry_count_ h)
          (flush_divisor curr_get (last_put_sent_ h)) in
      let pending :=
        pending_entries (put_ h) (total_entry_count_ h) (last_put_sent_ h) in
      if (pending >? 0) && (pending >=? limit) then
        upd (set_immediate_entry_count_ 0) w
      else
        let limit := int32 (limit - pending) in
        let limit := if limit <? waiting_count then waiting_count else limit in
        upd (set_immediate_entry_count_
               (if immediate >? limit then limit else immediate)) w
    else
      upd (set_immediate_entry_count_ immediate) w.

Definition SetAutomaticFlushes (enabled : bool) (w : World C) : World C :=
  CalcImmediateEntries 0 (upd (set_flush_automatically_ enabled) w).

Definition IsContextLost (w : World C) : bool * World C :=
  let w1 :=
    if negb (context_lost_ (helper w)) then
      upd (set_context_lost_
             (error.IsError (GetLastError (command_buffer_ w)))) w
    else w in
  (context_lost_ (helper w1), w1).

(** Modelled from the spec: [ClearUsable] is defined in the header, which
    is not part of the sources at hand.  It "marks the helper permanently
    unusable (usable = false)", after which reservations report zero
    capacity. *)
Definition ClearUsable (w : World C) : World C :=
  CalcImmediateEntries 0 (upd (set_usable_ false) w).

(** *** Allocation and release of the ring *)

(** [CreateTransferBuffer] also returns the mapped [Buffer], which the
    helper keeps in [ring_buffer_] and [entries_]; the embedding keeps the
    id alone.  Line 112 divides in [size_t]: the quotient written here is
    that of the source for [0 <= ring_buffer_size_] (see
    [unsigned_quotient]), and not for a negative size.  With a ring of 0
    entries and automatic flushing, line 71 of the source divides by zero
    in the last call; the embedding has [Z.rem] there. *)
Definition AllocateRingBuffer (w : World C) : bool * World C :=
  if negb (usable w) then (false, w)
  else if HaveRingBuffer w then (true, w)
  else
    let size := ring_buffer_size_ (helper w) in
    let r := CreateTransferBuffer size (command_buffer_ w) in
    let id := fst r in
    let w1 :=
      emit (CallCreateTransferBuffer size) (with_command_buffer (snd r) w) in
    if id <? 0 then (false, ClearUsable w1)
    else
      let w2 := upd (set_ring_buffer_id_ id) w1 in
      let w3 :=
        emit (CallSetGetBuffer id)
          (with_command_buffer (SetGetBuffer id (command_buffer_ w2)) w2) in
      let s := GetState (command_buffer_ w3) in
      let state := fst s in
      let w4 := emit CallGetState (with_command_buffer (snd s) w3) in
      (* ring_buffer_size_ / sizeof(CommandBufferEntry), for the
         non-negative sizes a ring has *)
      let num_ring_buffer_entries :=
        int32 (Z.quot size (sizeof_CommandBufferEntry K)) in
      if num_ring_buffer_entries >? num_entries state then
        (false, ClearUsable w4)
      else
        let w5 := upd (set_total_entry_count_ num_ring_buffer_entries) w4 in
        let w6 := upd (set_put_ (put_offset state)) w5 in
        (true, CalcImmediateEntries 0 w6).

Definition FreeResources (w : World C) : World C :=
  if HaveRingBuffer w then
    let id := ring_buffer_id_ (helper w) in
    let w1 :=
      emit (CallDestroyTransferBuffer id)
        (with_command_buffer
           (DestroyTransferBuffer id (command_buffer_ w)) w) in
    CalcImmediateEntries 0 (upd (set_ring_buffer_id_ (-1)) w1)
  else w.

(** [CHECK] ends the process when its condition is false. *)
Definition FreeRingBuffer (w : World C) : Exit * World C :=
  if (put_ (helper w) =? get_offset w)
     || error.IsError (error_ (GetLastState (command_buffer_ w)))
  then (Returned, FreeResources w)
  else (Aborted, emit LogFatal w).

Definition Initialize (ring_buffer_size : Z) (w : World C) : bool * World C :=
  AllocateRingBuffer (upd (set_ring_buffer_size_ ring_buffer_size) w).

(** [CommandBufferHelper::~CommandBufferHelper]. *)
Definition destroy (w : World C) : World C := FreeResources w.

(** *** Flushing *)

(** "Wrap put_ before flush." *)
Definition wrap_put (w : World C) : World C :=
  if put_ (helper w) =? total_entry_count_ (helper w)
  then upd (set_put_ 0) w else w.

Definition read_clock (w : World C) : World C :=
  let r := clock (command_buffer_ w) in
  upd (set_last_flush_time_ (fst r)) (with_command_buffer (snd r) w).

Definition FlushSync (w : World C) : bool * World C :=
  if negb (usable w) then (false, w)
  else
    let w1 := wrap_put w in
    let w2 := read_clock w1 in
    let w3 := upd (set_last_put_sent_ (put_ (helper w2))) w2 in
    let put := put_ (helper w3) in
    let get := get_offset w3 in
    let r := cb_FlushSync put get (command_buffer_ w3) in
    let state := fst r in
    let w4 := emit (CallFlushSync put get) (with_command_buffer (snd r) w3) in
    let w5 :=
      upd (set_flush_generation_
             (uint32 (flush_generation_ (helper w4) + 1))) w4 in
    (error_ state =? error.kNoError, CalcImmediateEntries 0 w5).

Definition Flush (w : World C) : World C :=
  let w1 := wrap_put w in
  if usable w1
     && negb (last_put_sent_ (helper w1) =? put_ (helper w1)) then
    let w2 := read_clock w1 in
    let w3 := upd (set_last_put_sent_ (put_ (helper w2))) w2 in
    let put := put_ (helper w3) in
    let w4 :=
      emit (CallFlush put)
        (with_command_buffer (cb_Flush put (command_buffer_ w3)) w3) in
    let w5 :=
      upd (set_flush_generation_
             (uint32 (flush_generation_ (helper w4) + 1))) w4 in
    CalcImmediateEntries 0 w5
  else w1.

(** Compiled under CMD_HELPER_PERIODIC_FLUSH_CHECK. *)
Definition PeriodicFlushCheck (w : World C) : World C :=
  let r := clock (command_buffer_ w) in
  let current_time := fst r in
  let w1 := with_command_buffer (snd r) w in
  if current_time - last_flush_time_ (helper w1)
     >? kPeriodicFlushDelay_clocks K
  then Flush w1 else w1.

(** The [do ... while] of [Finish]: one unit of fuel per [FlushSync]. *)
Fixpoint Finish_loop (fuel : nat) (w : World C) : option (bool * World C) :=
  match fuel with
  | O => None
  | S fuel' =>
      let r := FlushSync w in
      if negb (fst r) then Some (false, snd r)
      else if negb (put_ (helper (snd r)) =? get_offset (snd r))
           then Finish_loop fuel' (snd r)
           else Some (true, snd r)
  end.

Definition Finish (fuel : nat) (w : World C) : option (bool * World C) :=
  if negb (usable w) then Some (false, w)
  else if put_ (helper w) =? get_offset w then Some (true, w)
  else Finish_loop fuel w.


(** *** Tokens and waiting *)

(** The [while] of [WaitForToken]: one unit of fuel per [FlushSync]. *)
Fixpoint WaitForToken_loop (fuel : nat) (token : Z) (w : World C)
  : option (Exit * World C) :=
  if last_token_read w <? token then
    if get_offset w =? put_ (helper w) then
      Some (Aborted, emit LogFatal w)
    else
      match fuel with
      | O => None
      | S fuel' =>
          let r := FlushSync w in
          if negb (fst r) then Some (Returned, snd r)
          else WaitForToken_loop fuel' token (snd r)
      end
  else Some (Returned, w).

Definition WaitForToken (fuel : nat) (token : Z) (w : World C)
  : option (Exit * World C) :=
  if negb (usable w) || negb (HaveRingBuffer w) then Some (Returned, w)
  else if token <? 0 then Some (Returned, w)
  else if token >? token_ (helper w) then Some (Returned, w)
  else WaitForToken_loop fuel token w.

(** The first [while] of [WaitForAvailableEntries], lines 274-284: wait
    until [get] has wrapped.  The boolean tells whether the loop ended
    ([true]) or a failed [FlushSync] made the function return ([false]). *)
Fixpoint wait_get_wrapped (fuel : nat) (w : World C)
  : option (bool * World C) :=
  let curr_get := get_offset w in
  if (curr_get >? put_ (helper w)) || (curr_get =? 0) then
    match fuel with
    | O => None
    | S fuel' =>
        let r := FlushSync w in
        if negb (fst r) then Some (false, snd r)
        else wait_get_wrapped fuel' (snd r)
    end
  else Some (true, w).

(** [cmd::Noop::Set(&entries_[put_], num_to_skip)]: a no-op header with
    skip count [num_to_skip] goes to offset [put_]. *)
Definition write_noop (num_to_skip : Z) (w : World C) : World C :=
  emit (WroteNoop (put_ (helper w)) num_to_skip (get_offset w)) w.

(** "Insert Noops to fill out the buffer", lines 286-292. *)
Fixpoint insert_noops (fuel : nat) (num_entries : Z) (w : World C)
  : option (World C) :=
  if num_entries >? 0 then
    match fuel with
    | O => None
    | S fuel' =>
        let num_to_skip := Z.min (kMaxSize K) num_entries in
        let w1 := write_noop num_to_skip w in
        let w2 := upd (set_put_ (int32 (put_ (helper w1) + num_to_skip))) w1 in
        insert_noops fuel' (int32 (num_entries - num_to_skip)) w2
    end
  else Some w.

(** The last [while] of [WaitForAvailableEntries], lines 305-311. *)
Fixpoint wait_entries (fuel : nat) (count : Z) (w : World C)
  : option (World C) :=
  if immediate_entry_count_ (helper w) <? count then
    match fuel with
    | O => None
    | S fuel' =>
        let r := FlushSync w in
        if negb (fst r) then Some (snd r)
        else wait_entries fuel' count (CalcImmediateEntries count (snd r))
    end
  else Some w.

(** Lines 268-294: the wrap.  [Some (false, _)] is the early [return]. *)
Definition wrap_around (fuel : nat) (count : Z) (w : World C)
  : option (bool * World C) :=
  if int32 (put_ (helper w) + count) >? total_entry_count_ (helper w) then
    match wait_get_wrapped fuel w with
    | None => None
    | Some (false, w1) => Some (false, w1)
    | Some (true, w1) =>
        let num_entries :=
          int32 (total_entry_count_ (helper w1) - put_ (helper w1)) in
        match insert_noops fuel num_entries w1 with
        | None => None
        | Some w2 => Some (true, upd (set_put_ 0) w2)
        end
    end
  else Some (true, w).

(** Lines 296-313: "Try to get 'count' entries without flushing", then with
    a shallow [Flush], then by waiting. *)
Definition get_entries (fuel : nat) (count : Z) (w : World C)
  : option (World C) :=
  let w1 := CalcImmediateEntries count w in
  if immediate_entry_count_ (helper w1) <? count then
    let w2 := CalcImmediateEntries count (Flush w1) in
    if immediate_entry_count_ (helper w2) <? count then
      wait_entries fuel count w2
    else Some w2
  else Some w1.

Definition WaitForAvailableEntries (fuel : nat) (count : Z) (w : World C)
  : option (World C) :=
  let w1 := snd (AllocateRingBuffer w) in
  if negb (usable w1) then Some w1
  else
    match wrap_around fuel count w1 with
    | None => None
    | Some (false, w2) => Some w2
    | Some (true, w2) => get_entries fuel count w2
    end.

(** Modelled from the spec: [GetSpace] is defined in the header, which is
    not part of the sources at hand.  It is the reservation primitive: when
    fewer than [entries] are immediately writable it waits for them through
    [WaitForAvailableEntries], reports no space ("zero capacity") when they
    still are not there, and otherwise hands out the run that starts at
    [put_] and advances [put_] over it. *)
Definition GetSpace (fuel : nat) (entries : Z) (w : World C)
  : option (option Z * World C) :=
  let reserve (w : World C) : option Z * World C :=
    let space := put_ (helper w) in
    let w1 := upd (set_put_ (int32 (put_ (helper w) + entries))) w in
    let w2 :=
      upd (set_immediate_entry_count_
             (int32 (immediate_entry_count_ (helper w1) - entries))) w1 in
    (Some space, w2) in
  if entries >? immediate_entry_count_ (helper w) then
    match WaitForAvailableEntries fuel entries w with
    | None => None
    | Some w1 =>
        if entries >? immediate_entry_count_ (helper w1) then Some (None, w1)
        else Some (reserve w1)
    end
  else Some (reserve w).

(** [cmd->Init(token_)] on the space [GetCmdSpace<cmd::SetToken>] returned. *)
Definition write_set_token (offset : Z) (w : World C) : World C :=
  emit (WroteSetToken offset (token_ (helper w))) w.

Definition InsertToken (fuel : nat) (w : World C) : option (Z * World C) :=
  let w1 := snd (AllocateRingBuffer w) in
  if negb (usable w1) then Some (token_ (helper w1), w1)
  else
    (* "Increment token as 31-bit integer." *)
    let w2 :=
      upd (set_token_ (Z.land (int32 (token_ (helper w1) + 1)) 0x7FFFFFFF))
        w1 in
    match GetSpace fuel (SetToken_entries K) w2 with
    | None => None
    | Some (None, w3) => Some (token_ (helper w3), w3)
    | Some (Some cmd, w3) =>
        let w4 := write_set_token cmd w3 in
        if token_ (helper w4) =? 0 then
          (* "we wrapped" *)
          match Finish fuel w4 with
          | None => None
          | Some (_, w5) => Some (token_ (helper w5), w5)
          end
        else Some (token_ (helper w4), w4)
    end.

(** *** The operations as a state machine *)

Inductive Op : Type :=
| OpSetAutomaticFlushes (enabled : bool)
| OpIsContextLost
| OpCalcImmediateEntries (waiting_count : Z)
| OpAllocateRingBuffer
| OpFreeResources
| OpFreeRingBuffer
| OpInitialize (ring_buffer_size : Z)
| OpFlushSync
| OpFlush
| OpPeriodicFlushCheck
| OpFinish
| OpInsertToken
| OpWaitForToken (token : Z)
| OpWaitForAvailableEntries (count : Z)
| OpGetSpace (entries : Z)
| OpClearUsable.

(** One operation; [None] when the fuel runs out.  An abort is recorded in
    the trace and the operations after it are still run, which only adds
    behaviours. *)
Definition run_op (fuel : nat) (op : Op) (w : World C) : option (World C) :=
  match op with
  | OpSetAutomaticFlushes enabled => Some (SetAutomaticFlushes enabled w)
  | OpIsContextLost => Some (snd (IsContextLost w))
  | OpCalcImmediateEntries n => Some (CalcImmediateEntries n w)
  | OpAllocateRingBuffer => Some (snd (AllocateRingBuffer w))
  | OpFreeResources => Some (FreeResources w)
  | OpFreeRingBuffer => Some (snd (FreeRingBuffer w))
  | OpInitialize size => Some (snd (Initialize size w))
  | OpFlushSync => Some (snd (FlushSync w))
  | OpFlush => Some (Flush w)
  | OpPeriodicFlushCheck => Some (PeriodicFlushCheck w)
  | OpFinish => option_map snd (Finish fuel w)
  | OpInsertToken => option_map snd (InsertToken fuel w)
  | OpWaitForToken token => option_map snd (WaitForToken fuel token w)
  | OpWaitForAvailableEntries count => WaitForAvailableEntries fuel count w
  | OpGetSpace entries => option_map snd (GetSpace fuel entries w)
  | OpClearUsable => Some (ClearUsable w)
  end.

Fixpoint run_ops (fuel : nat) (ops : list Op) (w : World C)
  : option (World C) :=
  match ops with
  | [] => Some w
  | op :: ops' =>
      match run_op fuel op w with
      | None => None
      | Some w1 => run_ops fuel ops' w1
      end
  end.

(** [n] calls of [InsertToken] in a row, with the values they returned. *)
Fixpoint InsertTokens (fuel : nat) (n : nat) (w : World C)
  : option (list Z * World C) :=
  match n with
  | O => Some ([], w)
  | S n' =>
      match InsertToken fuel w with
      | None => None
      | Some (v, w1) =>
          match InsertTokens fuel n' w1 with
          | None => None
          | Some (vs, w2) => Some (v :: vs, w2)
          end
      end
  end.

End CommandBufferHelper.

(** ** A scripted service

    A [CommandBuffer] for running the helper on concrete inputs: the states
    it will report to [FlushSync], in order, and the ids it will give to
    [CreateTransferBuffer] are written down in advance.  When a script is
    used up the service repeats its last state, or refuses the buffer. *)

Module Scripted.

Record Service : Type := mkService {
  last_state : State;
  replies : list State;
  buffer_ids : list Z;
  now : Z
}.

Definition create (size : Z) (s : Service) : Z * Service :=
  match buffer_ids s with
  | [] => (-1, s)
  | id :: ids => (id, mkService (last_state s) (replies s) ids (now s))
  end.

Definition flush_sync (put last_known_get : Z) (s : Service)
  : State * Service :=
  match replies s with
  | [] => (last_state s, s)
  | st :: sts => (st, mkService st sts (buffer_ids s) (now s))
  end.

Definition tick (s : Service) : Z * Service :=
  (now s, mkService (last_state s) (replies s) (buffer_ids s) (now s + 1)).

#[global] Instance command_buffer : CommandBuffer Service := {|
  CreateTransferBuffer := create;
  DestroyTransferBuffer := fun _ s => s;
  SetGetBuffer := fun _ s => s;
  GetState := fun s => (last_state s, s);
  GetLastState := last_state;
  GetLastToken := fun s => token (last_state s);
  GetLastError := fun s => error_ (last_state s);
  cb_Flush := fun _ s => s;
  cb_FlushSync := flush_sync;
  clock := tick
|}.

(** A service state with the given cursor and acknowledged token, no
    error, and room for 1024 entries. *)
Definition at_get (get tok : Z) : State := mkState 1024 get 0 tok 0.

Definition failed (get tok : Z) : State := mkState 1024 get 0 tok 1.

(** The constants used for concrete runs. *)
Definition constants : Constants :=
  {| kAutoFlushSmall := 16;
     kAutoFlushBig := 2;
     kMaxSize := 2097151;
     sizeof_CommandBufferEntry := 4;
     SetToken_entries := 2;
     kPeriodicFlushDelay_clocks := 1000 |}.

(** A helper with a ring of [total] entries installed under id 1. *)
Definition ring (total put last_put_sent tok : Z) (auto : bool) : Helper :=
  {| ring_buffer_id_ := 1;
     ring_buffer_size_ := 4 * total;
     total_entry_count_ := total;
     immediate_entry_count_ := 0;
     token_ := tok;
     put_ := put;
     last_put_sent_ := last_put_sent;
     usable_ := true;
     context_lost_ := false;
     flush_automatically_ := auto;
     last_flush_time_ := 0;
     flush_generation_ := 0 |}.

Definition world (h : Helper) (st : State) (script : list State)
  : World Service :=
  mkWorld h (mkService st script [] 0) [].

(** *** The runs used below *)

(** Scenario A: capacity 8, three entries written and flushed, the service
    at 3. *)
Definition scenario_A : World Service :=
  world (ring 8 3 3 0 false) (at_get 3 0) [].

Definition scenario_A_auto : World Service :=
  world (ring 8 3 3 0 true) (at_get 3 0) [].

(** Nothing written yet, automatic flushing on. *)
Definition idle : World Service :=
  world (ring 8 0 0 0 true) (at_get 0 0) [].

(** Four entries written and not sent, automatic flushing on. *)
Definition four_pending : World Service :=
  world (ring 8 4 0 0 true) (at_get 0 0) [].

(** Three entries written and not sent. *)
Definition three_unsent : World Service :=
  world (ring 8 3 0 0 false) (at_get 0 0) [].

(** Scenario B: [put] at 6 of 8, the service still reading the tail; its
    cursor wraps to 0, then moves to 3 and to 5. *)
Definition scenario_B : World Service :=
  world (ring 8 6 6 0 false) (at_get 7 0) [at_get 0 0; at_get 3 0; at_get 5 0].

Definition scenario_B_end : World Service :=
  match WaitForAvailableEntries constants 5 4 scenario_B with
  | Some w => w
  | None => scenario_B
  end.

(** Scenario C: token 1 issued and not acknowledged, the ring empty. *)
Definition scenario_C : World Service :=
  world (ring 8 2 2 1 false) (at_get 2 0) [].

(** Scenario D: the highest token issued is 3. *)
Definition scenario_D : World Service :=
  world (ring 8 0 0 3 false) (at_get 0 3) [].

(** Three entries to drain; the service consumes one, then the rest. *)
Definition drain : World Service :=
  world (ring 8 3 0 0 false) (at_get 0 0) [at_get 1 0; at_get 3 0].

(** The same, but the second [FlushSync] reports an error. *)
Definition drain_fails : World Service :=
  world (ring 8 3 0 0 false) (at_get 0 0) [at_get 1 0; failed 1 0].


(** An empty ring, and a service that will grant one more buffer. *)
Definition idle_ring : World Service :=
  mkWorld (ring 8 0 0 0 false) (mkService (at_get 0 0) [] [2] 0) [].


(** The counter about to wrap, room in the ring, a service that consumes
    what it is sent. *)
Definition wrap_token : World Service :=
  world (ring 8 2 2 0x7FFFFFFF false) (at_get 2 5) [at_get 4 0].

Definition wrap_token_end : World Service :=
  match InsertToken constants 5 wrap_token with
  | Some (_, w) => w
  | None => wrap_token
  end.

(** The counter about to wrap, the ring full up to the physical end, and a
    service that answers the next [FlushSync] with an error; it has
    acknowledged token 5. *)
Definition wrap_token_failed : World Service :=
  world (ring 8 7 0 0x7FFFFFFF false) (at_get 0 5) [failed 0 5].

Definition wrap_token_failed_end : World Service :=
  match InsertToken constants 5 wrap_token_failed with
  | Some (_, w) => w
  | None => wrap_token_failed
  end.

(** A new helper on a service whose context is lost: it grants one buffer
    and refuses the next. *)
Definition fresh_lost : World Service :=
  mkWorld (new_helper 0) (mkService (mkState 1024 0 0 0 1) [] [1] 0) [].

(** [fresh_lost] after the ring was set up, three entries were written, the
    ring was freed and could not be allocated again. *)
Definition unsent_unusable : World Service :=
  mkWorld
    {| ring_buffer_id_ := -1;
       ring_buffer_size_ := 32;
       total_entry_count_ := 8;
       immediate_entry_count_ := 0;
       token_ := 0;
       put_ := 3;
       last_put_sent_ := 0;
       usable_ := false;
       context_lost_ := false;
       flush_automatically_ := true;
       last_flush_time_ := 0;
       flush_generation_ := 0 |}
    (mkService (mkState 1024 0 0 0 1) [] [] 0)
    [CallCreateTransferBuffer 32; CallSetGetBuffer 1; CallGetState;
     CallDestroyTransferBuffer 1; CallCreateTransferBuffer 32].

(** Scenario B with the service behind [put_]: [put] at 6 of 8, [get] at 3,
    the ring otherwise as in [scenario_B]. *)
Definition scenario_B_behind : World Service :=
  world (ring 8 6 6 0 false) (at_get 3 0) [at_get 5 0].

Definition scenario_B_behind_end : World Service :=
  match WaitForAvailableEntries constants 5 4 scenario_B_behind with
  | Some w => w
  | None => scenario_B_behind
  end.

(** A new helper for a ring of 32 bytes, on a service that grants the
    buffer under id 1. *)
Definition granted : World Service :=
  mkWorld (set_ring_buffer_size_ 32 (new_helper 0))
    (mkService (at_get 0 0) [] [1] 0) [].

(** The same, on a service that reports room for four entries only. *)
Definition too_small : World Service :=
  mkWorld (set_ring_buffer_size_ 32 (new_helper 0))
    (mkService (mkState 4 0 0 0 0) [] [1] 0) [].

(** The service is ahead of [put_]: two entries written and sent, [get] at
    6 on its way round. *)
Definition get_ahead : World Service :=
  world (ring 8 2 2 0 true) (at_get 6 0) [].

(** Token 1 issued with three entries unsent; the service consumes them
    and acknowledges the token at the first [FlushSync]. *)
Definition token_wait : World Service :=
  world (ring 8 3 0 1 false) (at_get 0 0) [at_get 3 1].

Definition token_wait_end : World Service :=
  match WaitForToken constants 5 1 token_wait with
  | Some (_, w) => w
  | None => token_wait
  end.

(** Room for three entries after [put_] at 2, the service caught up. *)
Definition room : World Service :=
  world (ring 8 2 2 0 false) (at_get 2 0) [].

Definition room_end : World Service :=
  match WaitForAvailableEntries constants 5 3 room with
  | Some w => w
  | None => room
  end.

(** The context was found lost earlier. *)
Definition known_lost : World Service :=
  mkWorld (set_context_lost_ true (ring 8 0 0 0 false))
    (mkService (at_get 0 0) [] [2] 0) [].

Definition known_lost_end : World Service :=
  match run_ops constants 5
          [OpFreeRingBuffer; OpInsertToken; OpFlush] known_lost with
  | Some w => w
  | None => known_lost
  end.

End Scripted.

(** ** Vocabulary of the statements *)

Definition is_flush_sync (e : Event) : bool :=
  match e with CallFlushSync _ _ => true | _ => false end.

(** The no-op records that tile the ring from [from] to [to], each written
    while the helper observed the cursor [get]. *)
Fixpoint noop_run (get from to : Z) (evs : list Event) : Prop :=
  match evs with
  | [] => from = to
  | WroteNoop offset skip observed :: evs' =>
      offset = from /\ observed = get /\ 0 < skip /\ from + skip <= to /\
      noop_run get (from + skip) to evs'
  | _ :: _ => False
  end.

(** Line 112 as C++ evaluates it where [size_t] has [bits] bits: the
    [int32] size is converted to [size_t], divided by the [size_t] [d], and
    the quotient converted to [int32]. *)
Definition unsigned_quotient (bits size d : Z) : Z :=
  int32 ((size mod 2 ^ bits) / d).

(** The operations that start by allocating the ring when there is none. *)
Definition allocates (op : Op) : bool :=
  match op with
  | OpAllocateRingBuffer | OpInitialize _ | OpInsertToken
  | OpWaitForAvailableEntries _ | OpGetSpace _ => true
  | _ => false
  end.

Definition is_set_token (e : Event) : bool :=
  match e with WroteSetToken _ _ => true | _ => false end.

Definition not_set_token (e : Event) : bool := negb (is_set_token e).

Section Vocabulary.

Context {C : Type} {CB : CommandBuffer C}.
Variable K : Constants.

(** The cursors the auto-flush arithmetic stays in range for: a ring of at
    most [2^30 - 1] entries, [put_] and [last_put_sent_] inside it
    ([put_] may sit on the physical end until the next wrap), and a [get]
    that is an [int32]. *)
Definition cursors_in_range (w : World C) : Prop :=
  let h := helper w in
  0 < total_entry_count_ h < 2 ^ 30 /\
  0 <= put_ h <= total_entry_count_ h /\
  0 <= last_put_sent_ h <= total_entry_count_ h /\
  int32_range (get_offset w).

Definition divisors_positive : Prop :=
  0 < kAutoFlushSmall K /\ 0 < kAutoFlushBig K.

(** What [CalcImmediateEntries] stores, for a usable helper with a ring. *)
Definition writable_entries (waiting_count : Z) (w : World C) : Z :=
  let h := helper w in
  let get := get_offset w in
  let base :=
    if get >? put_ h then get - put_ h - 1
    else total_entry_count_ h - put_ h - (if get =? 0 then 1 else 0) in
  if flush_automatically_ h then
    let limit :=
      Z.quot (total_entry_count_ h) (flush_divisor K get (last_put_sent_ h)) in
    let pending :=
      (put_ h + total_entry_count_ h - last_put_sent_ h)
        mod total_entry_count_ h in
    if (0 <? pending) && (limit <=? pending) then 0
    else Z.min base (Z.max (limit - pending) waiting_count)
  else base.

(** The fields no flush, wait or recomputation touches. *)
Definition core (w : World C) :=
  let h := helper w in
  (ring_buffer_id_ h, ring_buffer_size_ h, total_entry_count_ h, token_ h,
   usable_ h, context_lost_ h, flush_automatically_ h).

Definition steady (w w' : World C) : Prop := core w' = core w.

(** [w'] has the trace of [w] followed by events that all satisfy [P]. *)
Definition extends (P : Event -> bool) (w w' : World C) : Prop :=
  exists evs, trace w' = trace w ++ evs /\ Forall (fun e => P e = true) evs.

(** [put_] is where it was, unless it sat on the physical end and was
    wrapped to 0. *)
Definition put_kept (w w' : World C) : Prop :=
  (put_ (helper w') = put_ (helper w) \/ put_ (helper w') = 0) /\
  (put_ (helper w) <> total_entry_count_ (helper w) ->
   put_ (helper w') = put_ (helper w)).

(** The world in which an operation that allocates looks for the ring. *)
Definition before_allocation (op : Op) (w : World C) : World C :=
  match op with
  | OpInitialize size => upd (set_ring_buffer_size_ size) w
  | _ => w
  end.

(** The world after [n] calls of [FlushSync]. *)
Fixpoint flushes (n : nat) (w : World C) : World C :=
  match n with
  | O => w
  | S n' => flushes n' (snd (FlushSync K w))
  end.

(** The [k]-th [FlushSync] of a drain succeeds and leaves work behind. *)
Definition keeps_draining (w : World C) (k : nat) : Prop :=
  fst (FlushSync K (flushes k w)) = true /\
  put_ (helper (flushes (S k) w)) <> get_offset (flushes (S k) w).

(** The condition of the first loop of [WaitForAvailableEntries], lines 275
    and 277: [get] is ahead of [put_], or at 0. *)
Definition must_wait (w : World C) : bool :=
  (get_offset w >? put_ (helper w)) || (get_offset w =? 0).

(** The [k]-th [FlushSync] of that wait is made, because [get] has not
    wrapped, and succeeds. *)
Definition keeps_waiting (w : World C) (k : nat) : Prop :=
  must_wait (flushes k w) = true /\
  fst (FlushSync K (flushes k w)) = true.

(** The stored writable count is current: computing it again from the
    cursors as they are gives the same world. *)
Definition count_is_current (w : World C) : Prop :=
  exists n, CalcImmediateEntries K n w = w.

(** A wait that ended because [FlushSync] returned [false]: the world is
    the one that call left. *)
Definition stopped_by_failed_flush (w' : World C) : Prop :=
  exists w0, fst (FlushSync K w0) = false /\ w' = snd (FlushSync K w0).

End Vocabulary.

(** * Properties *)

(** ** Machine integers *)

Lemma int32_small (z : Z) : int32_range z -> int32 z = z.
Proof.
  unfold int32_range, int32. intros Hz.
  rewrite Z.mod_small by lia. lia.
Qed.


(** Drop the wrap-around of every [int32] whose argument is in range. *)
Ltac int32_simpl :=
  repeat match goal with
         | |- context [int32 ?z] =>
             rewrite (int32_small z) by (unfold int32_range in *; lia)
         end.

Lemma quot_bounds (a b : Z) : 0 <= a -> 0 < b -> 0 <= Z.quot a b <= a.
Proof.
  intros Ha Hb. rewrite Z.quot_div_nonneg by lia. split.
  - apply Z.div_pos; lia.
  - apply Z.div_le_upper_bound; nia.
Qed.

(** For a size that is not negative the signed quotient of the embedding is
    the unsigned quotient of line 112. *)
Lemma unsigned_quotient_signed (bits size d : Z) :
  31 <= bits -> 0 < d -> 0 <= size < 2 ^ 31 ->
  unsigned_quotient bits size d = int32 (Z.quot size d) /\
  int32 (Z.quot size d) = size / d /\
  0 <= size / d <= size /\
  (d <= size -> 0 < size / d).
Proof.
  intros Hb Hd Hs.
  assert (Hp : 2 ^ 31 <= 2 ^ bits) by (apply Z.pow_le_mono_r; lia).
  assert (Hq : 0 <= size / d <= size) by
    (rewrite <- Z.quot_div_nonneg by lia; apply quot_bounds; lia).
  unfold unsigned_quotient.
  rewrite Z.mod_small by lia. rewrite Z.quot_div_nonneg by lia.
  rewrite int32_small by (unfold int32_range; lia).
  repeat split; try lia.
  intros Hle. apply Z.div_str_pos. lia.
Qed.

Lemma quot_antitone (a n m : Z) :
  0 <= a -> 0 < n <= m -> Z.quot a m <= Z.quot a n.
Proof.
  intros Ha Hnm. rewrite !Z.quot_div_nonneg by lia.
  apply Z.div_le_compat_l; lia.
Qed.


(** The 31-bit increment of [InsertToken]. *)
Lemma token_increment (t : Z) :
  0 <= t < 2 ^ 31 ->
  Z.land (int32 (t + 1)) 0x7FFFFFFF = (t + 1) mod 2 ^ 31.
Proof.
  intros Ht.
  change 0x7FFFFFFF with (Z.ones 31). rewrite Z.land_ones by lia.
  unfold int32.
  destruct (Z.eq_dec t (2 ^ 31 - 1)) as [-> | Hne].
  - reflexivity.
  - rewrite (Z.mod_small (t + 1 + 2 ^ 31)) by lia.
    f_equal. lia.
Qed.

Section Properties.

Context {C : Type} {CB : CommandBuffer C}.
Variable K : Constants.

(** ** What the setters leave alone *)

Lemma CalcImmediateEntries_frame (n : Z) (w : World C) :
  exists m, CalcImmediateEntries K n w = upd (set_immediate_entry_count_ m) w.
Proof.
  unfold CalcImmediateEntries.
  repeat match goal with
         | |- context [if ?b then _ else _] => destruct b
         end; eexists; reflexivity.
Qed.

Lemma contiguous_entries_eq (get put total : Z) :
  0 <= put <= total -> total < 2 ^ 30 -> int32_range get ->
  contiguous_entries get put total =
  if get >? put then get - put - 1
  else total - put - (if get =? 0 then 1 else 0).
Proof.
  unfold contiguous_entries, int32_range. intros Hp Ht Hg.
  destruct (get >? put) eqn:E.
  - apply Z.gtb_lt in E. int32_simpl. reflexivity.
  - destruct (get =? 0); int32_simpl; reflexivity.
Qed.

Lemma pending_entries_eq (put total lps : Z) :
  0 < total < 2 ^ 30 -> 0 <= put <= total -> 0 <= lps <= total ->
  pending_entries put total lps = (put + total - lps) mod total.
Proof.
  unfold pending_entries. intros Ht Hp Hl.
  int32_simpl.
  apply Z.rem_mod_nonneg; lia.
Qed.


Lemma flush_divisor_positive (get lps : Z) :
  divisors_positive K -> 0 < flush_divisor K get lps.
Proof. unfold flush_divisor. intros [? ?]. destruct (get =? lps); lia. Qed.

Lemma CalcImmediateEntries_writable (waiting_count : Z) (w : World C) :
  usable w = true -> HaveRingBuffer w = true ->
  cursors_in_range w -> divisors_positive K ->
  immediate_entry_count_ (helper (CalcImmediateEntries K waiting_count w))
  = writable_entries K waiting_count w.
Proof.
  intros Hu Hr (Ht & Hp & Hl & Hg) Hd.
  unfold CalcImmediateEntries, writable_entries.
  rewrite Hu, Hr. cbn [negb orb].
  rewrite contiguous_entries_eq by first [assumption | lia].
  rewrite pending_entries_eq by lia.
  set (base := if get_offset w >? _ then _ else _).
  destruct (flush_automatically_ (helper w)); [| reflexivity].
  unfold flush_limit.
  set (N := flush_divisor K _ _).
  assert (HN : 0 < N) by (apply flush_divisor_positive; assumption).
  set (pending := _ mod _).
  assert (Hpend : 0 <= pending < total_entry_count_ (helper w))
    by (apply Z.mod_pos_bound; lia).
  pose proof (quot_bounds (total_entry_count_ (helper w)) N
                ltac:(lia) HN) as Hq.
  set (limit := Z.quot _ N) in *.
  replace (pending >? 0) with (0 <? pending)
    by (rewrite Z.gtb_ltb; reflexivity).
  replace (pending >=? limit) with (limit <=? pending)
    by (rewrite Z.geb_leb; reflexivity).
  destruct ((0 <? pending) && (limit <=? pending)); [reflexivity |].
  int32_simpl.
  cbn [helper upd immediate_entry_count_ set_immediate_entry_count_].
  destruct (limit - pending <? waiting_count) eqn:E1;
    [apply Z.ltb_lt in E1 | apply Z.ltb_ge in E1];
    match goal with
    | |- (if ?a >? ?b then _ else _) = _ =>
        destruct (a >? b) eqn:E2;
        [apply Z.gtb_lt in E2 | rewrite Z.gtb_ltb in E2; apply Z.ltb_ge in E2]
    end; lia.
Qed.

(** ** Frames: what each operation leaves alone *)

Lemma steady_refl (w : World C) : steady w w.
Proof. reflexivity. Qed.

Lemma steady_trans (w1 w2 w3 : World C) :
  steady w1 w2 -> steady w2 w3 -> steady w1 w3.
Proof. unfold steady. congruence. Qed.

Lemma steady_usable {w w' : World C} : steady w w' -> usable w' = usable w.
Proof. unfold steady, core, usable. congruence. Qed.

Lemma steady_ring {w w' : World C} :
  steady w w' -> HaveRingBuffer w' = HaveRingBuffer w.
Proof.
  unfold steady, core, HaveRingBuffer. intros H.
  replace (ring_buffer_id_ (helper w')) with (ring_buffer_id_ (helper w))
    by congruence.
  reflexivity.
Qed.

Lemma steady_token {w w' : World C} :
  steady w w' -> token_ (helper w') = token_ (helper w).
Proof. unfold steady, core. congruence. Qed.

Lemma steady_total {w w' : World C} :
  steady w w' -> total_entry_count_ (helper w') = total_entry_count_ (helper w).
Proof. unfold steady, core. congruence. Qed.

Lemma extends_refl (P : Event -> bool) (w : World C) : extends P w w.
Proof. exists []. split; [now rewrite app_nil_r | constructor]. Qed.

Lemma extends_trans (P : Event -> bool) (w1 w2 w3 : World C) :
  extends P w1 w2 -> extends P w2 w3 -> extends P w1 w3.
Proof.
  intros (e1 & H1 & F1) (e2 & H2 & F2). exists (e1 ++ e2). split.
  - rewrite H2, H1, app_assoc. reflexivity.
  - apply Forall_app. split; assumption.
Qed.

Lemma extends_weaken (P Q : Event -> bool) (w w' : World C) :
  (forall e, P e = true -> Q e = true) -> extends P w w' -> extends Q w w'.
Proof.
  intros HPQ (evs & H & F). exists evs. split; [assumption |].
  eapply Forall_impl; [| exact F]. exact HPQ.
Qed.

Lemma is_flush_sync_call (e : Event) :
  is_flush_sync e = true -> is_call e = true.
Proof. destruct e; simpl; congruence. Qed.

Lemma Calc_steady (n : Z) (w : World C) : steady w (CalcImmediateEntries K n w).
Proof. destruct (CalcImmediateEntries_frame n w) as [m ->]. reflexivity. Qed.

Lemma Calc_trace (n : Z) (w : World C) :
  trace (CalcImmediateEntries K n w) = trace w.
Proof. destruct (CalcImmediateEntries_frame n w) as [m ->]. reflexivity. Qed.

Lemma Calc_command_buffer (n : Z) (w : World C) :
  command_buffer_ (CalcImmediateEntries K n w) = command_buffer_ w.
Proof. destruct (CalcImmediateEntries_frame n w) as [m ->]. reflexivity. Qed.

Lemma Calc_put (n : Z) (w : World C) :
  put_ (helper (CalcImmediateEntries K n w)) = put_ (helper w).
Proof. destruct (CalcImmediateEntries_frame n w) as [m ->]. reflexivity. Qed.

Lemma Calc_last_put_sent (n : Z) (w : World C) :
  last_put_sent_ (helper (CalcImmediateEntries K n w))
  = last_put_sent_ (helper w).
Proof. destruct (CalcImmediateEntries_frame n w) as [m ->]. reflexivity. Qed.


Lemma wrap_put_steady (w : World C) : steady w (wrap_put w).
Proof. unfold wrap_put. destruct (_ =? _); reflexivity. Qed.

Lemma wrap_put_trace (w : World C) : trace (wrap_put w) = trace w.
Proof. unfold wrap_put. destruct (_ =? _); reflexivity. Qed.

Lemma wrap_put_command_buffer (w : World C) :
  command_buffer_ (wrap_put w) = command_buffer_ w.
Proof. unfold wrap_put. destruct (_ =? _); reflexivity. Qed.

Lemma FlushSync_steady (w : World C) : steady w (snd (FlushSync K w)).
Proof.
  unfold FlushSync. destruct (negb (usable w)); [reflexivity |].
  cbn [snd]. eapply steady_trans; [| apply Calc_steady].
  eapply steady_trans; [apply wrap_put_steady |]. reflexivity.
Qed.

Lemma FlushSync_trace (w : World C) :
  trace (snd (FlushSync K w)) =
  trace w ++
  (if usable w
   then [CallFlushSync (put_ (helper (wrap_put w)))
           (get_offset_
              (GetLastState (snd (clock (command_buffer_ w)))))]
   else []).
Proof.
  unfold FlushSync. destruct (usable w); cbn [negb snd].
  - rewrite Calc_trace. cbn. unfold get_offset, read_clock. cbn.
    rewrite wrap_put_trace, wrap_put_command_buffer. reflexivity.
  - now rewrite app_nil_r.
Qed.

Lemma FlushSync_extends (w : World C) :
  extends is_flush_sync w (snd (FlushSync K w)).
Proof.
  eexists. split; [apply FlushSync_trace |].
  destruct (usable w); repeat constructor.
Qed.

Lemma FlushSync_put (w : World C) :
  put_ (helper (snd (FlushSync K w))) =
  if usable w then put_ (helper (wrap_put w)) else put_ (helper w).
Proof.
  unfold FlushSync. destruct (usable w); cbn [negb snd]; [| reflexivity].
  rewrite Calc_put. reflexivity.
Qed.


Lemma Flush_steady (w : World C) : steady w (Flush K w).
Proof.
  unfold Flush. destruct (_ && _).
  - eapply steady_trans; [| apply Calc_steady].
    eapply steady_trans; [apply wrap_put_steady |]. reflexivity.
  - apply wrap_put_steady.
Qed.

Lemma Flush_extends (w : World C) : extends is_call w (Flush K w).
Proof.
  unfold Flush. destruct (_ && _).
  - eexists. split.
    + rewrite Calc_trace. cbn. rewrite wrap_put_trace. reflexivity.
    + repeat constructor.
  - exists []. rewrite wrap_put_trace, app_nil_r. split; constructor.
Qed.

Lemma Flush_put (w : World C) :
  put_ (helper (Flush K w)) = put_ (helper (wrap_put w)).
Proof.
  unfold Flush. destruct (_ && _); [| reflexivity].
  rewrite Calc_put. reflexivity.
Qed.

(** *** The loops *)

Lemma Finish_loop_steady (fuel : nat) :
  forall (w : World C) ok w',
    Finish_loop K fuel w = Some (ok, w') -> steady w w'.
Proof.
  induction fuel as [| fuel IH]; intros w ok w' H; [discriminate |].
  cbn [Finish_loop] in H.
  destruct (negb (fst (FlushSync K w))).
  - injection H as <- <-. apply FlushSync_steady.
  - destruct (negb (_ =? _)).
    + eapply steady_trans; [apply FlushSync_steady | eapply IH; eassumption].
    + injection H as <- <-. apply FlushSync_steady.
Qed.

Lemma Finish_steady {fuel : nat} {w : World C} {ok w'} :
  Finish K fuel w = Some (ok, w') -> steady w w'.
Proof.
  unfold Finish. destruct (negb (usable w)).
  - intros H. injection H as <- <-. apply steady_refl.
  - destruct (_ =? _).
    + intros H. injection H as <- <-. apply steady_refl.
    + apply Finish_loop_steady.
Qed.

Lemma WaitForToken_loop_steady (fuel : nat) (token : Z) :
  forall (w : World C) e w',
    WaitForToken_loop K fuel token w = Some (e, w') -> steady w w'.
Proof.
  induction fuel as [| fuel IH]; intros w e w' H; cbn [WaitForToken_loop] in H;
    destruct (last_token_read w <? token);
    try (injection H as <- <-; apply steady_refl);
    destruct (get_offset w =? put_ (helper w));
    try (injection H as <- <-; reflexivity);
    try discriminate.
  destruct (negb (fst (FlushSync K w))).
  - injection H as <- <-. apply FlushSync_steady.
  - eapply steady_trans; [apply FlushSync_steady | eapply IH; eassumption].
Qed.

Lemma WaitForToken_steady {fuel : nat} {token : Z} {w : World C} {e w'} :
  WaitForToken K fuel token w = Some (e, w') -> steady w w'.
Proof.
  unfold WaitForToken.
  destruct (negb (usable w) || negb (HaveRingBuffer w));
    [intros H; injection H as <- <-; apply steady_refl |].
  destruct (token <? 0);
    [intros H; injection H as <- <-; apply steady_refl |].
  destruct (token >? token_ (helper w));
    [intros H; injection H as <- <-; apply steady_refl |].
  apply WaitForToken_loop_steady.
Qed.

Lemma wait_get_wrapped_steady (fuel : nat) :
  forall (w : World C) b w',
    wait_get_wrapped K fuel w = Some (b, w') -> steady w w'.
Proof.
  induction fuel as [| fuel IH]; intros w b w' H; cbn [wait_get_wrapped] in H;
    destruct ((get_offset w >? put_ (helper w)) || (get_offset w =? 0));
    try (injection H as <- <-; apply steady_refl);
    try discriminate.
  destruct (negb (fst (FlushSync K w))).
  - injection H as <- <-. apply FlushSync_steady.
  - eapply steady_trans; [apply FlushSync_steady | eapply IH; eassumption].
Qed.

Lemma insert_noops_steady (fuel : nat) :
  forall (n : Z) (w w' : World C),
    insert_noops K fuel n w = Some w' -> steady w w'.
Proof.
  induction fuel as [| fuel IH]; intros n w w' H; cbn [insert_noops] in H;
    destruct (n >? 0);
    try (injection H as <-; apply steady_refl);
    try discriminate.
  eapply steady_trans; [| eapply IH; eassumption]. reflexivity.
Qed.

Lemma wait_entries_steady (fuel : nat) (count : Z) :
  forall (w w' : World C),
    wait_entries K fuel count w = Some w' -> steady w w'.
Proof.
  induction fuel as [| fuel IH]; intros w w' H; cbn [wait_entries] in H;
    destruct (immediate_entry_count_ (helper w) <? count);
    try (injection H as <-; apply steady_refl);
    try discriminate.
  destruct (negb (fst (FlushSync K w))).
  - injection H as <-. apply FlushSync_steady.
  - eapply steady_trans; [apply FlushSync_steady |].
    eapply steady_trans; [apply Calc_steady | eapply IH; eassumption].
Qed.

Lemma wrap_around_steady {fuel : nat} {count : Z} {w : World C} {b w'} :
  wrap_around K fuel count w = Some (b, w') -> steady w w'.
Proof.
  unfold wrap_around.
  destruct (int32 (put_ (helper w) + count) >? total_entry_count_ (helper w));
    [| intros H; injection H as <- <-; apply steady_refl].
  destruct (wait_get_wrapped K fuel w) as [[[|] w1] |] eqn:E1;
    try discriminate.
  - destruct (insert_noops K fuel _ w1) as [w2 |] eqn:E2; [| discriminate].
    intros H. injection H as <- <-.
    eapply steady_trans; [eapply wait_get_wrapped_steady; eassumption |].
    eapply steady_trans; [eapply insert_noops_steady; eassumption |].
    reflexivity.
  - intros H. injection H as <- <-.
    eapply wait_get_wrapped_steady; eassumption.
Qed.

Lemma get_entries_steady {fuel : nat} {count : Z} {w w' : World C} :
  get_entries K fuel count w = Some w' -> steady w w'.
Proof.
  unfold get_entries.
  destruct (immediate_entry_count_ (helper (CalcImmediateEntries K count w))
            <? count);
    [| intros H; injection H as <-; apply Calc_steady].
  assert (Hs : steady w (CalcImmediateEntries K count
                           (Flush K (CalcImmediateEntries K count w)))).
  { eapply steady_trans; [apply Calc_steady |].
    eapply steady_trans; [apply Flush_steady | apply Calc_steady]. }
  destruct (_ <? count).
  - intros H. eapply steady_trans; [exact Hs |].
    eapply wait_entries_steady; eassumption.
  - intros H. injection H as <-. exact Hs.
Qed.

(** *** Allocation *)

Lemma ClearUsable_unusable (w : World C) : usable (ClearUsable K w) = false.
Proof.
  unfold ClearUsable.
  rewrite (steady_usable (Calc_steady 0 _)). reflexivity.
Qed.

Lemma ClearUsable_token (w : World C) :
  token_ (helper (ClearUsable K w)) = token_ (helper w).
Proof.
  unfold ClearUsable.
  rewrite (steady_token (Calc_steady 0 _)). reflexivity.
Qed.

Lemma ClearUsable_trace (w : World C) : trace (ClearUsable K w) = trace w.
Proof. unfold ClearUsable. rewrite Calc_trace. reflexivity. Qed.

Lemma Allocate_unusable (w : World C) :
  usable w = false -> AllocateRingBuffer K w = (false, w).
Proof. unfold AllocateRingBuffer. intros ->. reflexivity. Qed.

Lemma Allocate_installed (w : World C) :
  usable w = true -> HaveRingBuffer w = true ->
  AllocateRingBuffer K w = (true, w).
Proof. unfold AllocateRingBuffer. intros -> ->. reflexivity. Qed.

Lemma Allocate_result (w : World C) :
  fst (AllocateRingBuffer K w) = usable (snd (AllocateRingBuffer K w)).
Proof.
  unfold AllocateRingBuffer.
  destruct (usable w) eqn:Hu; cbn [negb];
    [| cbn [fst snd]; now rewrite Hu].
  destruct (HaveRingBuffer w); [cbn [fst snd]; now rewrite Hu |].
  destruct (_ <? 0); [cbn [fst snd]; now rewrite ClearUsable_unusable |].
  destruct (_ >? _); [cbn [fst snd]; now rewrite ClearUsable_unusable |].
  cbn [fst snd]. rewrite (steady_usable (Calc_steady 0 _)).
  cbn. exact (eq_sym Hu).
Qed.

Lemma Allocate_ring (w : World C) :
  usable (snd (AllocateRingBuffer K w)) = true ->
  HaveRingBuffer (snd (AllocateRingBuffer K w)) = true.
Proof.
  unfold AllocateRingBuffer.
  destruct (usable w) eqn:Hu; cbn [negb]; [| cbn [snd]; congruence].
  destruct (HaveRingBuffer w) eqn:Hr; [cbn [snd]; congruence |].
  destruct (fst (CreateTransferBuffer _ _) <? 0) eqn:Hid;
    [cbn [snd]; rewrite ClearUsable_unusable; discriminate |].
  destruct (_ >? _); [cbn [snd]; rewrite ClearUsable_unusable; discriminate |].
  intros _. cbn [snd]. rewrite (steady_ring (Calc_steady 0 _)).
  unfold HaveRingBuffer. cbn.
  apply Z.ltb_ge in Hid.
  apply negb_true_iff, Z.eqb_neq. lia.
Qed.

Lemma Allocate_token (w : World C) :
  token_ (helper (snd (AllocateRingBuffer K w))) = token_ (helper w).
Proof.
  unfold AllocateRingBuffer.
  destruct (negb (usable w)); [reflexivity |].
  destruct (HaveRingBuffer w); [reflexivity |].
  destruct (_ <? 0); [cbn [snd]; now rewrite ClearUsable_token |].
  destruct (_ >? _); [cbn [snd]; now rewrite ClearUsable_token |].
  cbn [snd]. rewrite (steady_token (Calc_steady 0 _)). reflexivity.
Qed.


Lemma WaitForAvailableEntries_usable
  {fuel : nat} {count : Z} {w w' : World C} :
  WaitForAvailableEntries K fuel count w = Some w' ->
  usable w' = usable (snd (AllocateRingBuffer K w)).
Proof.
  unfold WaitForAvailableEntries.
  destruct (negb (usable (snd (AllocateRingBuffer K w)))).
  - intros H. injection H as <-. reflexivity.
  - destruct (wrap_around K fuel count _) as [[[|] w2] |] eqn:E;
      try discriminate; intros H.
    + rewrite (steady_usable (get_entries_steady H)).
      apply steady_usable. eapply wrap_around_steady; eassumption.
    + injection H as <-.
      apply steady_usable. eapply wrap_around_steady; eassumption.
Qed.

Lemma WaitForAvailableEntries_installed
  {fuel : nat} {count : Z} {w w' : World C} :
  usable w = true -> HaveRingBuffer w = true ->
  WaitForAvailableEntries K fuel count w = Some w' -> steady w w'.
Proof.
  intros Hu Hr. unfold WaitForAvailableEntries.
  rewrite (Allocate_installed w Hu Hr). cbn [snd]. rewrite Hu. cbn [negb].
  destruct (wrap_around K fuel count w) as [[[|] w2] |] eqn:E;
    try discriminate; intros H.
  - eapply steady_trans; [eapply wrap_around_steady; eassumption |].
    eapply get_entries_steady; eassumption.
  - injection H as <-. eapply wrap_around_steady; eassumption.
Qed.

Lemma GetSpace_installed {fuel : nat} {n : Z} {w : World C} {r w'} :
  usable w = true -> HaveRingBuffer w = true ->
  GetSpace K fuel n w = Some (r, w') -> steady w w'.
Proof.
  intros Hu Hr. unfold GetSpace.
  destruct (n >? immediate_entry_count_ (helper w)).
  - destruct (WaitForAvailableEntries K fuel n w) as [w1 |] eqn:E;
      [| discriminate].
    pose proof (WaitForAvailableEntries_installed Hu Hr E) as Hs.
    destruct (n >? immediate_entry_count_ (helper w1));
      intros H; injection H as <- <-; [exact Hs |].
    eapply steady_trans; [exact Hs | reflexivity].
  - intros H. injection H as <- <-. reflexivity.
Qed.

Lemma GetSpace_usable {fuel : nat} {n : Z} {w : World C} {r w'} :
  GetSpace K fuel n w = Some (r, w') ->
  usable w' = usable w \/
  usable w' = usable (snd (AllocateRingBuffer K w)).
Proof.
  unfold GetSpace.
  destruct (n >? immediate_entry_count_ (helper w)).
  - destruct (WaitForAvailableEntries K fuel n w) as [w1 |] eqn:E;
      [| discriminate].
    pose proof (WaitForAvailableEntries_usable E) as Hs.
    destruct (n >? immediate_entry_count_ (helper w1));
      intros H; injection H as <- <-; right; exact Hs.
  - intros H. injection H as <- <-. left. reflexivity.
Qed.

Lemma GetSpace_token {fuel : nat} {n : Z} {w : World C} {r w'} :
  GetSpace K fuel n w = Some (r, w') ->
  token_ (helper w') = token_ (helper w).
Proof.
  unfold GetSpace.
  assert (Hw : forall w1, WaitForAvailableEntries K fuel n w = Some w1 ->
                          token_ (helper w1) = token_ (helper w)).
  { unfold WaitForAvailableEntries. intros w1.
    destruct (negb (usable (snd (AllocateRingBuffer K w)))).
    - intros H. injection H as <-. apply Allocate_token.
    - destruct (wrap_around K fuel n _) as [[[|] w2] |] eqn:E;
        try discriminate; intros H.
      + rewrite (steady_token (get_entries_steady H)).
        rewrite (steady_token (wrap_around_steady E)).
        apply Allocate_token.
      + injection H as <-.
        rewrite (steady_token (wrap_around_steady E)).
        apply Allocate_token. }
  destruct (n >? immediate_entry_count_ (helper w)).
  - destruct (WaitForAvailableEntries K fuel n w) as [w1 |] eqn:E;
      [| discriminate].
    specialize (Hw w1 eq_refl).
    destruct (n >? immediate_entry_count_ (helper w1));
      intros H; injection H as <- <-; exact Hw.
  - intros H. injection H as <- <-. reflexivity.
Qed.

(** *** InsertToken *)

Lemma InsertToken_result {fuel : nat} {w : World C} {v w'} :
  InsertToken K fuel w = Some (v, w') ->
  let w1 := snd (AllocateRingBuffer K w) in
  v = token_ (helper w') /\
  usable w' = usable w1 /\
  token_ (helper w') =
    if usable w1 then Z.land (int32 (token_ (helper w) + 1)) 0x7FFFFFFF
    else token_ (helper w).
Proof.
  cbv zeta. unfold InsertToken.
  destruct (usable (snd (AllocateRingBuffer K w))) eqn:Hu; cbn [negb].
  - pose proof (Allocate_ring w Hu) as Hr.
    set (w2 := upd (set_token_ _) (snd (AllocateRingBuffer K w))).
    assert (Hu2 : usable w2 = true) by exact Hu.
    assert (Hr2 : HaveRingBuffer w2 = true) by exact Hr.
    assert (Ht2 : token_ (helper w2)
                  = Z.land (int32 (token_ (helper w) + 1)) 0x7FFFFFFF).
    { unfold w2. cbn. rewrite Allocate_token. reflexivity. }
    destruct (GetSpace K fuel (SetToken_entries K) w2)
      as [[[cmd |] w3] |] eqn:E; [| | discriminate].
    + pose proof (GetSpace_installed Hu2 Hr2 E) as Hs.
      destruct (token_ (helper (write_set_token cmd w3)) =? 0).
      * destruct (Finish K fuel (write_set_token cmd w3))
          as [[ok w5] |] eqn:EF; [| discriminate].
        intros H. injection H as <- <-.
        pose proof (Finish_steady EF) as Hf.
        split; [reflexivity |]. split.
        -- rewrite (steady_usable Hf). cbn.
           rewrite <- Hu2. apply (steady_usable Hs).
        -- rewrite (steady_token Hf). cbn.
           rewrite (steady_token Hs). exact Ht2.
      * intros H. injection H as <- <-.
        split; [reflexivity |]. split.
        -- cbn. rewrite <- Hu2. apply (steady_usable Hs).
        -- cbn. rewrite (steady_token Hs). exact Ht2.
    + pose proof (GetSpace_installed Hu2 Hr2 E) as Hs.
      intros H. injection H as <- <-.
      split; [reflexivity |]. split.
      * rewrite <- Hu2. apply (steady_usable Hs).
      * rewrite (steady_token Hs). exact Ht2.
  - intros H. injection H as <- <-.
    split; [reflexivity |]. split; [exact Hu | apply Allocate_token].
Qed.

(** ** The writable count *)

(** C1 (amended).  For a usable helper with a ring, [CalcImmediateEntries]
    first takes the contiguous count: [get - put - 1] when [get > put], and
    otherwise [capacity - put], less one slot exactly when [get == 0].  With
    automatic flushing off this is the count it stores; with automatic
    flushing on it stores zero when a flush is due and otherwise the
    smaller of the contiguous count and [max (limit - pending)
    waiting_count].  The result depends on the cursors, the flag and
    [waiting_count] only. *)
Theorem CalcImmediateEntries_contiguous_count
  (waiting_count : Z) (w : World C) :
  usable w = true -> HaveRingBuffer w = true ->
  cursors_in_range w -> divisors_positive K ->
  let h := helper w in
  let get := get_offset w in
  let contiguous :=
    if get >? put_ h then get - put_ h - 1
    else total_entry_count_ h - put_ h - (if get =? 0 then 1 else 0) in
  let limit :=
    Z.quot (total_entry_count_ h)
      (if get =? last_put_sent_ h then kAutoFlushSmall K
       else kAutoFlushBig K) in
  let pending :=
    (put_ h + total_entry_count_ h - last_put_sent_ h)
      mod total_entry_count_ h in
  let count :=
    immediate_entry_count_ (helper (CalcImmediateEntries K waiting_count w)) in
  (flush_automatically_ h = false -> count = contiguous) /\
  (flush_automatically_ h = true ->
   count = if (0 <? pending) && (limit <=? pending) then 0
           else Z.min contiguous (Z.max (limit - pending) waiting_count)).
Proof.
  intros Hu Hr Hc Hd. cbv zeta.
  rewrite (CalcImmediateEntries_writable waiting_count w Hu Hr Hc Hd).
  unfold writable_entries, flush_divisor.
  split; intros ->; reflexivity.
Qed.

(** C6 (amended).  With automatic flushing on, the entries written and not
    yet sent are [pending = (put + capacity - last_put_sent) mod capacity];
    the divisor is [kAutoFlushSmall] when [get == last_put_sent] and
    [kAutoFlushBig] otherwise; once [pending] is positive and has reached
    [capacity / divisor] the stored writable count is zero.  Of two
    divisors the larger gives the threshold that is no higher. *)
Theorem CalcImmediateEntries_forces_flush (waiting_count : Z) (w : World C) :
  usable w = true -> HaveRingBuffer w = true ->
  flush_automatically_ (helper w) = true ->
  cursors_in_range w -> divisors_positive K ->
  let h := helper w in
  let get := get_offset w in
  let pending :=
    (put_ h + total_entry_count_ h - last_put_sent_ h)
      mod total_entry_count_ h in
  let divisor :=
    if get =? last_put_sent_ h then kAutoFlushSmall K else kAutoFlushBig K in
  pending_entries (put_ h) (total_entry_count_ h) (last_put_sent_ h)
  = pending /\
  flush_divisor K get (last_put_sent_ h) = divisor /\
  (0 < pending -> flush_limit (total_entry_count_ h) divisor <= pending ->
   immediate_entry_count_ (helper (CalcImmediateEntries K waiting_count w))
   = 0) /\
  (forall n m, 0 < n <= m ->
   flush_limit (total_entry_count_ h) m
   <= flush_limit (total_entry_count_ h) n).
Proof.
  intros Hu Hr Ha Hc Hd. cbv zeta.
  pose proof Hc as (Ht & Hp & Hl & Hg). cbv zeta in Ht, Hp, Hl.
  split; [apply pending_entries_eq; assumption |].
  split; [reflexivity |].
  split.
  - intros Hpos Hreach.
    rewrite (CalcImmediateEntries_writable waiting_count w Hu Hr Hc Hd).
    unfold writable_entries, flush_divisor. rewrite Ha.
    unfold flush_limit in Hreach.
    apply Z.ltb_lt in Hpos. apply Z.leb_le in Hreach.
    rewrite Hpos, Hreach. reflexivity.
  - intros n m Hnm. unfold flush_limit. apply quot_antitone; lia.
Qed.

(** ** Waiting for a token *)

(** C5.  [WaitForToken] with a value above the token issued last returns at
    once: the world, and with it the helper, the [CommandBuffer] and the
    trace of requests, is what it was. *)
Theorem WaitForToken_stale (fuel : nat) (token : Z) (w : World C) :
  token > token_ (helper w) ->
  WaitForToken K fuel token w = Some (Returned, w).
Proof.
  intros Hgt. unfold WaitForToken.
  destruct (negb (usable w) || negb (HaveRingBuffer w)); [reflexivity |].
  destruct (token <? 0); [reflexivity |].
  apply Z.gtb_gt in Hgt. rewrite Hgt. reflexivity.
Qed.

(** C4.  While [WaitForToken] waits (the acknowledged token is below the
    value), an empty ring ([get == put]) ends the wait with the fatal log
    line: no further [FlushSync] is issued, whatever fuel is left.  This
    holds at every iteration of the loop, and so at the first one of a call
    that passed the entry checks. *)
Theorem WaitForToken_empty_ring_is_fatal
  (fuel : nat) (token : Z) (w : World C) :
  last_token_read w < token ->
  get_offset w = put_ (helper w) ->
  WaitForToken_loop K fuel token w = Some (Aborted, emit LogFatal w) /\
  (usable w = true -> HaveRingBuffer w = true ->
   0 <= token <= token_ (helper w) ->
   WaitForToken K fuel token w = Some (Aborted, emit LogFatal w)).
Proof.
  intros Hlt Hempty.
  assert (Hloop : WaitForToken_loop K fuel token w
                  = Some (Aborted, emit LogFatal w)).
  { apply Z.ltb_lt in Hlt. apply Z.eqb_eq in Hempty.
    destruct fuel; cbn [WaitForToken_loop]; rewrite Hlt, Hempty; reflexivity. }
  split; [exact Hloop |].
  intros Hu Hr [Hlo Hhi]. unfold WaitForToken.
  rewrite Hu, Hr. cbn [negb orb].
  replace (token <? 0) with false by (symmetry; apply Z.ltb_ge; lia).
  replace (token >? token_ (helper w)) with false
    by (symmetry; rewrite Z.gtb_ltb; apply Z.ltb_ge; lia).
  exact Hloop.
Qed.

(** ** Flush *)

(** C9 (amended).  [Flush] first wraps a [put_] that sits on the physical
    end.  With no unsent work after that wrap, or on a helper that is not
    usable, nothing else happens: no request reaches the [CommandBuffer]
    and only the wrap of [put_] changes the helper.  With unsent work on a
    usable helper, [Flush] reads the clock into [last_flush_time_], records
    [put_] as sent and sends exactly one request, the asynchronous
    [Flush(put_)]. *)
Theorem Flush_elision (w : World C) :
  let w1 := wrap_put w in
  let put := put_ (helper w1) in
  (last_put_sent_ (helper w1) = put \/ usable w = false ->
   Flush K w = w1 /\
   trace (Flush K w) = trace w /\
   command_buffer_ (Flush K w) = command_buffer_ w /\
   helper (Flush K w) =
     if put_ (helper w) =? total_entry_count_ (helper w)
     then set_put_ 0 (helper w) else helper w) /\
  (usable w = true -> last_put_sent_ (helper w1) <> put ->
   trace (Flush K w) = trace w ++ [CallFlush put] /\
   command_buffer_ (Flush K w) =
     cb_Flush put (snd (clock (command_buffer_ w))) /\
   last_flush_time_ (helper (Flush K w)) = fst (clock (command_buffer_ w)) /\
   last_put_sent_ (helper (Flush K w)) = put /\
   put_ (helper (Flush K w)) = put /\
   steady w (Flush K w)).
Proof.
  cbv zeta. split.
  - intros Hno.
    assert (Hcond : usable (wrap_put w)
                    && negb (last_put_sent_ (helper (wrap_put w))
                             =? put_ (helper (wrap_put w))) = false).
    { destruct Hno as [Heq | Hu].
      - rewrite Heq, Z.eqb_refl. apply andb_false_r.
      - rewrite (steady_usable (wrap_put_steady w)), Hu. reflexivity. }
    unfold Flush. rewrite Hcond.
    repeat split.
    + apply wrap_put_trace.
    + apply wrap_put_command_buffer.
    + unfold wrap_put.
      destruct (put_ (helper w) =? total_entry_count_ (helper w));
        reflexivity.
  - intros Hu Hne.
    assert (Hcond : usable (wrap_put w)
                    && negb (last_put_sent_ (helper (wrap_put w))
                             =? put_ (helper (wrap_put w))) = true).
    { rewrite (steady_usable (wrap_put_steady w)), Hu.
      apply Z.eqb_neq in Hne. rewrite Hne. reflexivity. }
    split; [| split; [| split; [| split; [| split]]]].
    + unfold Flush. rewrite Hcond, Calc_trace. cbn.
      rewrite wrap_put_trace. reflexivity.
    + unfold Flush. rewrite Hcond, Calc_command_buffer. cbn.
      rewrite wrap_put_command_buffer. reflexivity.
    + unfold Flush. rewrite Hcond.
      match goal with
      | |- context [CalcImmediateEntries K ?n ?x] =>
          destruct (CalcImmediateEntries_frame n x) as [m ->]
      end.
      cbn. rewrite wrap_put_command_buffer. reflexivity.
    + unfold Flush. rewrite Hcond, Calc_last_put_sent. reflexivity.
    + apply Flush_put.
    + apply Flush_steady.
Qed.

(** ** Finish *)

Lemma flushes_S (n : nat) :
  forall w : World C, flushes K (S n) w = snd (FlushSync K (flushes K n w)).
Proof.
  induction n as [| n IH]; intros w; [reflexivity |].
  change (flushes K (S (S n)) w) with (flushes K (S n) (snd (FlushSync K w))).
  rewrite IH. reflexivity.
Qed.

Lemma Finish_loop_sound (fuel : nat) :
  forall (w : World C) ok w',
    Finish_loop K fuel w = Some (ok, w') ->
    exists n, (n < fuel)%nat /\
      w' = flushes K (S n) w /\
      ok = fst (FlushSync K (flushes K n w)) /\
      (ok = true -> put_ (helper w') = get_offset w') /\
      (forall k, (k < n)%nat -> keeps_draining K w k).
Proof.
  induction fuel as [| fuel IH]; intros w ok w' H; [discriminate |].
  cbn [Finish_loop] in H.
  destruct (fst (FlushSync K w)) eqn:Hok; cbn [negb] in H.
  - destruct (put_ (helper (snd (FlushSync K w)))
              =? get_offset (snd (FlushSync K w))) eqn:Hpg; cbn [negb] in H.
    + injection H as <- <-. exists 0%nat.
      split; [lia |]. split; [reflexivity |].
      split; [symmetry; exact Hok |].
      split; [intros _; apply Z.eqb_eq; exact Hpg | intros k Hk0; lia].
    + destruct (IH _ _ _ H) as (n & Hn & Hw & Hr & Hd & Hk).
      exists (S n).
      split; [lia |]. split; [exact Hw |]. split; [exact Hr |].
      split; [exact Hd |].
      intros [| k] Hlt; [| apply (Hk k); lia].
      split; [exact Hok |].
      cbn [flushes]. apply Z.eqb_neq. exact Hpg.
  - injection H as <- <-. exists 0%nat.
    split; [lia |]. split; [reflexivity |].
    split; [symmetry; exact Hok |].
    split; [discriminate | intros k Hk0; lia].
Qed.

Lemma Finish_loop_complete (n : nat) :
  forall (w : World C) (fuel : nat),
    (forall k, (k < n)%nat -> keeps_draining K w k) ->
    fst (FlushSync K (flushes K n w)) = false \/
    put_ (helper (flushes K (S n) w)) = get_offset (flushes K (S n) w) ->
    (n < fuel)%nat ->
    Finish_loop K fuel w
    = Some (fst (FlushSync K (flushes K n w)), flushes K (S n) w).
Proof.
  induction n as [| n IH]; intros w fuel Hk Hstop Hfuel;
    (destruct fuel as [| fuel]; [lia |]); cbn [Finish_loop].
  - cbn [flushes] in *.
    destruct (fst (FlushSync K w)); cbn [negb]; [| reflexivity].
    destruct Hstop as [Hf | Hd]; [discriminate |].
    apply Z.eqb_eq in Hd. rewrite Hd. reflexivity.
  - destruct (Hk 0%nat ltac:(lia)) as [Hok Hne].
    cbn [flushes] in Hok, Hne. rewrite Hok. cbn [negb].
    apply Z.eqb_neq in Hne. rewrite Hne. cbn [negb].
    apply IH; [| exact Hstop | lia].
    intros k Hlt. apply (Hk (S k)). lia.
Qed.

(** C7.  On a usable helper [Finish] returns [true] at once when
    [put == get].  Otherwise it calls [FlushSync] again and again: whenever
    it returns, it returns after some [n + 1] calls with the result of the
    last one, every earlier call having succeeded and left work behind, and
    a result of [true] means [put == get]; and as soon as a [FlushSync]
    reports an error or leaves [put == get], [Finish] does return, with
    [false] in the first case and [true] in the second. *)
Theorem Finish_drains (w : World C) :
  usable w = true ->
  (put_ (helper w) = get_offset w ->
   forall fuel, Finish K fuel w = Some (true, w)) /\
  (put_ (helper w) <> get_offset w ->
   (forall fuel ok w',
      Finish K fuel w = Some (ok, w') ->
      exists n, (n < fuel)%nat /\
        w' = flushes K (S n) w /\
        ok = fst (FlushSync K (flushes K n w)) /\
        (ok = true -> put_ (helper w') = get_offset w') /\
        (forall k, (k < n)%nat -> keeps_draining K w k)) /\
   (forall n fuel,
      (forall k, (k < n)%nat -> keeps_draining K w k) ->
      fst (FlushSync K (flushes K n w)) = false \/
      put_ (helper (flushes K (S n) w)) = get_offset (flushes K (S n) w) ->
      (n < fuel)%nat ->
      Finish K fuel w
      = Some (fst (FlushSync K (flushes K n w)), flushes K (S n) w))).
Proof.
  intros Hu. unfold Finish. rewrite Hu. cbn [negb]. split.
  - intros Heq fuel. apply Z.eqb_eq in Heq. rewrite Heq. reflexivity.
  - intros Hne. apply Z.eqb_neq in Hne. rewrite Hne. split.
    + intros fuel ok w'. apply Finish_loop_sound.
    + intros n fuel. apply Finish_loop_complete.
Qed.

(** ** Usability *)

Lemma FreeResources_frame (w : World C) :
  usable (FreeResources K w) = usable w /\
  token_ (helper (FreeResources K w)) = token_ (helper w).
Proof.
  unfold FreeResources. destruct (HaveRingBuffer w); [| split; reflexivity].
  rewrite (steady_usable (Calc_steady 0 _)), (steady_token (Calc_steady 0 _)).
  split; reflexivity.
Qed.

Lemma PeriodicFlushCheck_steady (w : World C) :
  steady w (PeriodicFlushCheck K w).
Proof.
  unfold PeriodicFlushCheck. destruct (_ >? _); [| reflexivity].
  eapply steady_trans; [| apply Flush_steady]. reflexivity.
Qed.

(** What one operation does to [usable_] and to [token_]. *)
Lemma run_op_frame (fuel : nat) (op : Op) (w w' : World C) :
  run_op K fuel op w = Some w' ->
  (op <> OpInsertToken -> token_ (helper w') = token_ (helper w)) /\
  (usable w' = usable w \/
   usable w' = false /\
   (op = OpClearUsable \/
    allocates op = true /\
    fst (AllocateRingBuffer K (before_allocation op w)) = false)).
Proof.
  destruct op; cbn [run_op option_map before_allocation allocates]; intros H.
  - injection H as <-. unfold SetAutomaticFlushes.
    rewrite (steady_usable (Calc_steady 0 _)), (steady_token (Calc_steady 0 _)).
    split; [reflexivity | left; reflexivity].
  - injection H as <-. unfold IsContextLost.
    destruct (negb (context_lost_ (helper w)));
      (split; [reflexivity | left; reflexivity]).
  - injection H as <-.
    rewrite (steady_usable (Calc_steady _ _)), (steady_token (Calc_steady _ _)).
    split; [reflexivity | left; reflexivity].
  - injection H as <-. split; [intros _; apply Allocate_token |].
    destruct (usable (snd (AllocateRingBuffer K w))) eqn:E.
    + left. destruct (usable w) eqn:Hu; [reflexivity |].
      rewrite (Allocate_unusable w Hu) in E. cbn [snd] in E. congruence.
    + right. split; [reflexivity |]. right. split; [reflexivity |].
      rewrite Allocate_result. exact E.
  - injection H as <-. destruct (FreeResources_frame w) as [-> ->].
    split; [reflexivity | left; reflexivity].
  - injection H as <-. unfold FreeRingBuffer.
    destruct (_ || _); cbn [snd].
    + destruct (FreeResources_frame w) as [-> ->].
      split; [reflexivity | left; reflexivity].
    + split; [reflexivity | left; reflexivity].
  - injection H as <-. unfold Initialize.
    set (w0 := upd (set_ring_buffer_size_ ring_buffer_size) w).
    split; [intros _; rewrite Allocate_token; reflexivity |].
    destruct (usable (snd (AllocateRingBuffer K w0))) eqn:E.
    + left. destruct (usable w) eqn:Hu; [reflexivity |].
      assert (Hu0 : usable w0 = false) by exact Hu.
      rewrite (Allocate_unusable w0 Hu0) in E. cbn [snd] in E. congruence.
    + right. split; [reflexivity |]. right. split; [reflexivity |].
      rewrite Allocate_result. exact E.
  - injection H as <-.
    rewrite (steady_usable (FlushSync_steady _)),
      (steady_token (FlushSync_steady _)).
    split; [reflexivity | left; reflexivity].
  - injection H as <-.
    rewrite (steady_usable (Flush_steady _)), (steady_token (Flush_steady _)).
    split; [reflexivity | left; reflexivity].
  - injection H as <-.
    rewrite (steady_usable (PeriodicFlushCheck_steady _)),
      (steady_token (PeriodicFlushCheck_steady _)).
    split; [reflexivity | left; reflexivity].
  - destruct (Finish K fuel w) as [[ok w1] |] eqn:E; [| discriminate].
    injection H as <-. cbn [snd].
    rewrite (steady_usable (Finish_steady E)), (steady_token (Finish_steady E)).
    split; [reflexivity | left; reflexivity].
  - split; [congruence |].
    destruct (InsertToken K fuel w) as [[v w1] |] eqn:E; [| discriminate].
    injection H as <-. cbn [snd].
    destruct (InsertToken_result E) as (_ & Hus & _).
    rewrite Hus.
    destruct (usable (snd (AllocateRingBuffer K w))) eqn:E1.
    + left. destruct (usable w) eqn:Hu; [reflexivity |].
      rewrite (Allocate_unusable w Hu) in E1. cbn [snd] in E1. congruence.
    + right. split; [reflexivity |]. right. split; [reflexivity |].
      rewrite Allocate_result. exact E1.
  - destruct (WaitForToken K fuel _ w) as [[e w1] |] eqn:E;
      [| discriminate].
    injection H as <-. cbn [snd].
    rewrite (steady_usable (WaitForToken_steady E)),
      (steady_token (WaitForToken_steady E)).
    split; [reflexivity | left; reflexivity].
  - split.
    + intros _.
      unfold WaitForAvailableEntries in H.
      destruct (negb (usable (snd (AllocateRingBuffer K w)))).
      * injection H as <-. apply Allocate_token.
      * destruct (wrap_around K fuel count _) as [[[|] w2] |] eqn:E;
          try discriminate.
        -- rewrite (steady_token (get_entries_steady H)).
           rewrite (steady_token (wrap_around_steady E)).
           apply Allocate_token.
        -- injection H as <-.
           rewrite (steady_token (wrap_around_steady E)).
           apply Allocate_token.
    + rewrite (WaitForAvailableEntries_usable H).
      destruct (usable (snd (AllocateRingBuffer K w))) eqn:E1.
      * left. destruct (usable w) eqn:Hu; [reflexivity |].
        rewrite (Allocate_unusable w Hu) in E1. cbn [snd] in E1. congruence.
      * right. split; [reflexivity |]. right. split; [reflexivity |].
        rewrite Allocate_result. exact E1.
  - destruct (GetSpace K fuel entries w) as [[r w1] |] eqn:E;
      [| discriminate].
    injection H as <-. cbn [snd].
    split; [intros _; apply (GetSpace_token E) |].
    destruct (GetSpace_usable E) as [Hs | Hs]; [left; exact Hs |].
    rewrite Hs.
    destruct (usable (snd (AllocateRingBuffer K w))) eqn:E1.
    + left. destruct (usable w) eqn:Hu; [reflexivity |].
      rewrite (Allocate_unusable w Hu) in E1. cbn [snd] in E1. congruence.
    + right. split; [reflexivity |]. right. split; [reflexivity |].
      rewrite Allocate_result. exact E1.
  - injection H as <-.
    split; [intros _; apply ClearUsable_token |].
    right. split; [apply ClearUsable_unusable | left; reflexivity].
Qed.




(** ** The token counter *)

Lemma land_31_bits (z : Z) : 0 <= Z.land z 0x7FFFFFFF < 2 ^ 31.
Proof.
  change 0x7FFFFFFF with (Z.ones 31). rewrite Z.land_ones by lia.
  apply Z.mod_pos_bound. lia.
Qed.

Lemma run_op_token_range (fuel : nat) (op : Op) (w w' : World C) :
  run_op K fuel op w = Some w' ->
  0 <= token_ (helper w) < 2 ^ 31 -> 0 <= token_ (helper w') < 2 ^ 31.
Proof.
  intros H Ht.
  assert (Hcase : op = OpInsertToken \/ op <> OpInsertToken)
    by (destruct op; (left; reflexivity) || (right; discriminate)).
  destruct Hcase as [-> | Hne].
  - cbn [run_op] in H.
    destruct (InsertToken K fuel w) as [[v w1] |] eqn:E; [| discriminate].
    injection H as <-. cbn [snd].
    destruct (InsertToken_result E) as (_ & _ & Htok). rewrite Htok.
    destruct (usable (snd (AllocateRingBuffer K w)));
      [apply land_31_bits | exact Ht].
  - destruct (run_op_frame _ _ _ _ H) as [Htok _]. rewrite (Htok Hne). exact Ht.
Qed.

(** C10.  [WaitForToken] with a negative value returns at once and leaves
    the world, and with it the helper, the [CommandBuffer] and the trace of
    requests, as it was.  The counter never produces such a value: from a
    counter in 31 bits [InsertToken] returns the counter it leaves behind,
    again in 31 bits and non-negative, also when it fails; and every
    sequence of operations keeps the counter in 31 bits. *)
Theorem WaitForToken_negative :
  (forall fuel token (w : World C),
     token < 0 -> WaitForToken K fuel token w = Some (Returned, w)) /\
  (forall fuel (w : World C) v w',
     InsertToken K fuel w = Some (v, w') ->
     0 <= token_ (helper w) < 2 ^ 31 ->
     v = token_ (helper w') /\ 0 <= v < 2 ^ 31) /\
  (forall fuel ops (w w' : World C),
     run_ops K fuel ops w = Some w' ->
     0 <= token_ (helper w) < 2 ^ 31 ->
     0 <= token_ (helper w') < 2 ^ 31).
Proof.
  split; [| split].
  - intros fuel tok w Hneg. unfold WaitForToken.
    destruct (negb (usable w) || negb (HaveRingBuffer w)); [reflexivity |].
    apply Z.ltb_lt in Hneg. rewrite Hneg. reflexivity.
  - intros fuel w v w' H Ht.
    destruct (InsertToken_result H) as (Hv & _ & Htok).
    split; [exact Hv |]. rewrite Hv, Htok.
    destruct (usable (snd (AllocateRingBuffer K w)));
      [apply land_31_bits | exact Ht].
  - intros fuel ops. induction ops as [| op ops IH]; intros w w' H Ht;
      cbn [run_ops] in H.
    + injection H as <-. exact Ht.
    + destruct (run_op K fuel op w) as [w1 |] eqn:E; [| discriminate].
      eapply IH; [exact H |]. eapply run_op_token_range; eassumption.
Qed.

(** ** The wrap *)

Lemma put_kept_refl (w : World C) : put_kept w w.
Proof. split; [left; reflexivity | reflexivity]. Qed.

Lemma put_kept_trans (w1 w2 w3 : World C) :
  steady w1 w2 -> put_kept w1 w2 -> put_kept w2 w3 -> put_kept w1 w3.
Proof.
  intros Hs [H12 K12] [H23 K23]. pose proof (steady_total Hs) as Ht. split.
  - destruct H23 as [-> | ->]; [exact H12 | right; reflexivity].
  - intros Hne. rewrite K23; [apply K12; exact Hne |].
    rewrite (K12 Hne), Ht. exact Hne.
Qed.

Lemma wrap_put_kept (w : World C) : put_kept w (wrap_put w).
Proof.
  unfold put_kept, wrap_put.
  destruct (put_ (helper w) =? total_entry_count_ (helper w)) eqn:E; cbn.
  - split; [right; reflexivity |]. apply Z.eqb_eq in E. congruence.
  - split; [left; reflexivity | reflexivity].
Qed.

Lemma FlushSync_put_kept (w : World C) : put_kept w (snd (FlushSync K w)).
Proof.
  unfold put_kept. rewrite FlushSync_put.
  destruct (usable w); [apply wrap_put_kept | apply put_kept_refl].
Qed.

Lemma Flush_put_kept (w : World C) : put_kept w (Flush K w).
Proof. unfold put_kept. rewrite Flush_put. apply wrap_put_kept. Qed.

Lemma Calc_put_kept (n : Z) (w : World C) :
  put_kept w (CalcImmediateEntries K n w).
Proof. unfold put_kept. rewrite Calc_put. apply put_kept_refl. Qed.

Lemma wait_get_wrapped_spec (fuel : nat) :
  forall (w : World C) b w',
    wait_get_wrapped K fuel w = Some (b, w') ->
    extends is_flush_sync w w' /\
    put_kept w w' /\
    (b = true -> get_offset w' <= put_ (helper w') /\ get_offset w' <> 0).
Proof.
  assert (Hexit : forall w : World C,
             (get_offset w >? put_ (helper w)) || (get_offset w =? 0) = false ->
             get_offset w <= put_ (helper w) /\ get_offset w <> 0).
  { intros w Hc. apply orb_false_iff in Hc. destruct Hc as [H1 H2].
    rewrite Z.gtb_ltb in H1. apply Z.ltb_ge in H1. apply Z.eqb_neq in H2.
    split; assumption. }
  induction fuel as [| fuel IH]; intros w b w' H; cbn [wait_get_wrapped] in H;
    destruct ((get_offset w >? put_ (helper w)) || (get_offset w =? 0)) eqn:Hc;
    try discriminate;
    try (injection H as <- <-;
         split; [apply extends_refl |];
         split; [apply put_kept_refl | intros _; apply Hexit; exact Hc]).
  destruct (negb (fst (FlushSync K w))).
  - injection H as <- <-.
    split; [apply FlushSync_extends |].
    split; [apply FlushSync_put_kept | discriminate].
  - destruct (IH _ _ _ H) as (He & Hp & Hb).
    split; [eapply extends_trans; [apply FlushSync_extends | exact He] |].
    split; [| exact Hb].
    eapply put_kept_trans;
      [apply FlushSync_steady | apply FlushSync_put_kept | exact Hp].
Qed.

Lemma insert_noops_spec (fuel : nat) :
  forall (n : Z) (w w' : World C) (to : Z),
    0 < kMaxSize K -> 0 <= n -> 0 <= put_ (helper w) ->
    put_ (helper w) + n = to -> to < 2 ^ 31 ->
    insert_noops K fuel n w = Some w' ->
    exists evs,
      trace w' = trace w ++ evs /\
      noop_run (get_offset w) (put_ (helper w)) to evs /\
      put_ (helper w') = to.
Proof.
  induction fuel as [| fuel IH]; intros n w w' to HM Hn Hp Hto Hlt H;
    cbn [insert_noops] in H;
    destruct (n >? 0) eqn:Hpos;
    try discriminate;
    try (injection H as <-; rewrite Z.gtb_ltb in Hpos; apply Z.ltb_ge in Hpos;
         exists []; rewrite app_nil_r;
         split; [reflexivity |]; split; [cbn; lia | lia]).
  apply Z.gtb_lt in Hpos.
  set (skip := Z.min (kMaxSize K) n) in *.
  assert (Hskip : 0 < skip <= n) by (unfold skip; lia).
  replace (int32 (n - skip)) with (n - skip) in H
    by (symmetry; apply int32_small; unfold int32_range; lia).
  replace (int32 (put_ (helper (write_noop skip w)) + skip))
    with (put_ (helper w) + skip) in H
    by (symmetry; apply int32_small; unfold int32_range; cbn; lia).
  apply (IH _ _ _ to HM) in H; cbn; try lia.
  destruct H as (evs & Htr & Hrun & Hput).
  exists (WroteNoop (put_ (helper w)) skip (get_offset w) :: evs).
  split; [| split].
  - rewrite Htr. cbn. rewrite <- app_assoc. reflexivity.
  - cbn [noop_run]. repeat split; try lia. exact Hrun.
  - exact Hput.
Qed.

Lemma insert_noops_total (fuel : nat) :
  forall (n : Z) (w : World C),
    0 < kMaxSize K -> n < 2 ^ 31 -> (Z.to_nat n <= fuel)%nat ->
    exists w', insert_noops K fuel n w = Some w'.
Proof.
  induction fuel as [| fuel IH]; intros n w HM Hn Hfuel;
    cbn [insert_noops]; destruct (n >? 0) eqn:Hpos;
    try (eexists; reflexivity);
    apply Z.gtb_lt in Hpos; [lia |].
  set (skip := Z.min (kMaxSize K) n).
  assert (Hskip : 0 < skip <= n) by (unfold skip; lia).
  replace (int32 (n - skip)) with (n - skip)
    by (symmetry; apply int32_small; unfold int32_range; lia).
  apply IH; [exact HM | lia | lia].
Qed.

Lemma wait_entries_spec (fuel : nat) (count : Z) :
  forall w w' : World C,
    wait_entries K fuel count w = Some w' ->
    extends is_flush_sync w w' /\ put_kept w w'.
Proof.
  induction fuel as [| fuel IH]; intros w w' H; cbn [wait_entries] in H;
    destruct (immediate_entry_count_ (helper w) <? count);
    try discriminate;
    try (injection H as <-; split; [apply extends_refl | apply put_kept_refl]).
  destruct (negb (fst (FlushSync K w))).
  - injection H as <-.
    split; [apply FlushSync_extends | apply FlushSync_put_kept].
  - destruct (IH _ _ H) as (He & Hp). split.
    + eapply extends_trans; [apply FlushSync_extends |].
      destruct He as (evs & Htr & Hall). exists evs.
      rewrite Calc_trace in Htr. split; assumption.
    + eapply put_kept_trans;
        [apply FlushSync_steady | apply FlushSync_put_kept |].
      eapply put_kept_trans;
        [apply Calc_steady | apply Calc_put_kept | exact Hp].
Qed.

Lemma get_entries_spec (fuel : nat) (count : Z) (w w' : World C) :
  get_entries K fuel count w = Some w' ->
  extends is_call w w' /\ put_kept w w'.
Proof.
  unfold get_entries.
  set (w1 := CalcImmediateEntries K count w).
  assert (H1 : extends is_call w w1 /\ put_kept w w1 /\ steady w w1).
  { split; [| split; [apply Calc_put_kept | apply Calc_steady]].
    exists []. unfold w1. rewrite Calc_trace, app_nil_r.
    split; [reflexivity | constructor]. }
  destruct H1 as (He1 & Hp1 & Hs1).
  destruct (immediate_entry_count_ (helper w1) <? count);
    [| intros H; injection H as <-; split; assumption].
  set (w2 := CalcImmediateEntries K count (Flush K w1)).
  assert (H2 : extends is_call w w2 /\ put_kept w w2 /\ steady w w2).
  { split; [| split].
    - eapply extends_trans; [exact He1 |].
      destruct (Flush_extends w1) as (evs & Htr & Hall). exists evs.
      unfold w2. rewrite Calc_trace. split; assumption.
    - eapply put_kept_trans; [exact Hs1 | exact Hp1 |].
      eapply put_kept_trans;
        [apply Flush_steady | apply Flush_put_kept | apply Calc_put_kept].
    - eapply steady_trans; [exact Hs1 |].
      eapply steady_trans; [apply Flush_steady | apply Calc_steady]. }
  destruct H2 as (He2 & Hp2 & Hs2).
  destruct (immediate_entry_count_ (helper w2) <? count);
    [| intros H; injection H as <-; split; assumption].
  intros H. destruct (wait_entries_spec _ _ _ _ H) as (He & Hp). split.
  - eapply extends_trans; [exact He2 |].
    eapply extends_weaken; [apply is_flush_sync_call | exact He].
  - eapply put_kept_trans; [exact Hs2 | exact Hp2 | exact Hp].
Qed.

Lemma flushes_steady (n : nat) :
  forall w : World C, steady w (flushes K n w).
Proof.
  induction n as [| n IH]; intros w; [apply steady_refl |].
  cbn [flushes]. eapply steady_trans; [apply FlushSync_steady | apply IH].
Qed.

Lemma flushes_put_kept (n : nat) :
  forall w : World C, put_kept w (flushes K n w).
Proof.
  induction n as [| n IH]; intros w; [apply put_kept_refl |].
  cbn [flushes].
  eapply put_kept_trans;
    [apply FlushSync_steady | apply FlushSync_put_kept | apply IH].
Qed.

Lemma flushes_extends (n : nat) :
  forall w : World C, extends is_flush_sync w (flushes K n w).
Proof.
  induction n as [| n IH]; intros w; [apply extends_refl |].
  cbn [flushes]. eapply extends_trans; [apply FlushSync_extends | apply IH].
Qed.

Lemma wait_get_wrapped_unfold (fuel : nat) (w : World C) :
  wait_get_wrapped K fuel w =
  if must_wait w then
    match fuel with
    | O => None
    | S fuel' =>
        if negb (fst (FlushSync K w)) then Some (false, snd (FlushSync K w))
        else wait_get_wrapped K fuel' (snd (FlushSync K w))
    end
  else Some (true, w).
Proof. destruct fuel; reflexivity. Qed.

Lemma must_wait_false (w : World C) :
  must_wait w = false ->
  get_offset w <= put_ (helper w) /\ get_offset w <> 0.
Proof.
  unfold must_wait. intros Hc. apply orb_false_iff in Hc.
  destruct Hc as [H1 H2].
  rewrite Z.gtb_ltb in H1. apply Z.ltb_ge in H1. apply Z.eqb_neq in H2.
  split; assumption.
Qed.

(** Every result of the wait is reached by the loop of lines 277-283. *)
Lemma wait_get_wrapped_sound (fuel : nat) :
  forall (w : World C) b w',
    wait_get_wrapped K fuel w = Some (b, w') ->
    exists n,
      (forall k, (k < n)%nat -> keeps_waiting K w k) /\
      (b = true /\ (n <= fuel)%nat /\
       w' = flushes K n w /\ must_wait w' = false
       \/
       b = false /\ (n < fuel)%nat /\
       w' = flushes K (S n) w /\
       must_wait (flushes K n w) = true /\
       fst (FlushSync K (flushes K n w)) = false).
Proof.
  induction fuel as [| fuel IH]; intros w b w' H;
    rewrite wait_get_wrapped_unfold in H;
    destruct (must_wait w) eqn:Hm; try discriminate;
    try (injection H as <- <-; exists 0%nat;
         split; [intros k Hk; lia |];
         left; repeat split; [lia | exact Hm]).
  destruct (fst (FlushSync K w)) eqn:Hok; cbn [negb] in H.
  - destruct (IH _ _ _ H) as (n & Hk & Hres).
    exists (S n). split.
    + intros [| k] Hlt; [split; assumption | apply Hk; lia].
    + destruct Hres as [(-> & Hn & -> & Hw) | (-> & Hn & -> & Hw & Hf)].
      * left. repeat split; [lia | exact Hw].
      * right. repeat split; [lia | exact Hw | exact Hf].
  - injection H as <- <-. exists 0%nat.
    split; [intros k Hk; lia |].
    right. repeat split; [lia | exact Hm | exact Hok].
Qed.

(** The loop does run: the wait ends as soon as [get] has wrapped, and
    returns as soon as a [FlushSync] fails. *)
Lemma wait_get_wrapped_complete (n : nat) :
  forall (w : World C) (fuel : nat),
    (forall k, (k < n)%nat -> keeps_waiting K w k) ->
    (must_wait (flushes K n w) = false -> (n <= fuel)%nat ->
     wait_get_wrapped K fuel w = Some (true, flushes K n w)) /\
    (must_wait (flushes K n w) = true ->
     fst (FlushSync K (flushes K n w)) = false -> (n < fuel)%nat ->
     wait_get_wrapped K fuel w = Some (false, flushes K (S n) w)).
Proof.
  induction n as [| n IH]; intros w fuel Hk.
  - cbn [flushes]. split.
    + intros Hm _. rewrite wait_get_wrapped_unfold, Hm. reflexivity.
    + intros Hm Hf Hfuel. rewrite wait_get_wrapped_unfold, Hm.
      destruct fuel as [| fuel]; [lia |]. rewrite Hf. reflexivity.
  - destruct (Hk 0%nat ltac:(lia)) as [Hm Hok]. cbn [flushes] in Hm, Hok.
    assert (Hk' : forall k, (k < n)%nat ->
                            keeps_waiting K (snd (FlushSync K w)) k)
      by (intros k Hlt; apply (Hk (S k)); lia).
    split.
    + intros Hstop Hfuel. destruct fuel as [| fuel]; [lia |].
      rewrite wait_get_wrapped_unfold, Hm, Hok. cbn [negb].
      apply (IH _ fuel Hk'); [exact Hstop | lia].
    + intros Hstop Hf Hfuel. destruct fuel as [| fuel]; [lia |].
      rewrite wait_get_wrapped_unfold, Hm, Hok. cbn [negb].
      apply (IH _ fuel Hk'); [exact Hstop | exact Hf | lia].
Qed.

(** C2 (amended).  When [WaitForAvailableEntries] has to wrap
    ([put + count] exceeds the capacity), it first runs the wait: it calls
    [FlushSync] for as long as the observed [get] is ahead of [put_]
    ([get > put]) or at 0, and adds nothing but these requests to the
    trace.  If one of these calls fails, the function returns after it and
    no record has been written.  When the wait ends, after [n] calls, the
    observed [get] is at or below [put_] and not 0: the service has wrapped
    round behind [put_], and nothing from [put_] to the physical end is
    unread.  Only then, and with that [get] observed, are the no-op records
    written; they tile the ring from [put_] to the physical end, and [put_]
    is 0 afterwards.  Both outcomes do come about: with the fuel for it,
    a failing call makes the function return, and a wrapped [get] makes the
    padding happen. *)
Theorem wrap_around_is_safe (fuel : nat) (count : Z) (w w' : World C) :
  let w1 := snd (AllocateRingBuffer K w) in
  let put := put_ (helper w1) in
  let total := total_entry_count_ (helper w1) in
  usable w1 = true ->
  0 < kMaxSize K ->
  0 <= put <= total -> 0 < total < 2 ^ 31 ->
  int32 (put + count) > total ->
  (WaitForAvailableEntries K fuel count w = Some w' ->
   exists n noops rest,
     (forall k, (k < n)%nat -> keeps_waiting K w1 k) /\
     Forall (fun e => is_call e = true) rest /\
     (must_wait (flushes K n w1) = true /\
      fst (FlushSync K (flushes K n w1)) = false /\
      w' = flushes K (S n) w1 /\ noops = [] /\ rest = []
      \/
      must_wait (flushes K n w1) = false /\
      get_offset (flushes K n w1) <= put_ (helper (flushes K n w1)) /\
      get_offset (flushes K n w1) <> 0 /\
      (put <> total -> put_ (helper (flushes K n w1)) = put) /\
      trace w' = trace (flushes K n w1) ++ noops ++ rest /\
      noop_run (get_offset (flushes K n w1))
        (put_ (helper (flushes K n w1))) total noops /\
      put_ (helper w') = 0)) /\
  (forall n,
     (forall k, (k < n)%nat -> keeps_waiting K w1 k) ->
     (must_wait (flushes K n w1) = true ->
      fst (FlushSync K (flushes K n w1)) = false -> (n < fuel)%nat ->
      WaitForAvailableEntries K fuel count w = Some (flushes K (S n) w1)) /\
     (must_wait (flushes K n w1) = false ->
      (n <= fuel)%nat -> (Z.to_nat total <= fuel)%nat ->
      exists noops w3,
        wrap_around K fuel count w1 = Some (true, w3) /\
        trace w3 = trace (flushes K n w1) ++ noops /\
        noop_run (get_offset (flushes K n w1))
          (put_ (helper (flushes K n w1))) total noops /\
        put_ (helper w3) = 0)) /\
  (forall n, extends is_flush_sync w1 (flushes K n w1)).
Proof.
  cbv zeta. set (w1 := snd (AllocateRingBuffer K w)).
  intros Hu HM Hput Htot Hwrap.
  apply Z.gtb_gt in Hwrap.
  assert (Hrange : forall n,
             total_entry_count_ (helper (flushes K n w1))
             = total_entry_count_ (helper w1) /\
             0 <= put_ (helper (flushes K n w1))
             <= total_entry_count_ (helper w1)).
  { intros n. split; [apply steady_total, flushes_steady |].
    destruct (flushes_put_kept n w1) as [[Hp | Hp] _]; rewrite Hp; lia. }
  assert (Hpad : forall n fuel' w3,
             insert_noops K fuel'
               (total_entry_count_ (helper w1) - put_ (helper (flushes K n w1)))
               (flushes K n w1) = Some w3 ->
             exists noops,
               trace w3 = trace (flushes K n w1) ++ noops /\
               noop_run (get_offset (flushes K n w1))
                 (put_ (helper (flushes K n w1)))
                 (total_entry_count_ (helper w1)) noops /\
               total_entry_count_ (helper w3)
               = total_entry_count_ (helper w1)).
  { intros n fuel' w3 E. destruct (Hrange n) as [Ht Hp].
    assert (Hn : 0 <= total_entry_count_ (helper w1)
                      - put_ (helper (flushes K n w1))) by lia.
    assert (Hp0 : 0 <= put_ (helper (flushes K n w1))) by lia.
    assert (Hto : put_ (helper (flushes K n w1))
                  + (total_entry_count_ (helper w1)
                     - put_ (helper (flushes K n w1)))
                  = total_entry_count_ (helper w1)) by lia.
    assert (Hlt : total_entry_count_ (helper w1) < 2 ^ 31) by lia.
    destruct (insert_noops_spec fuel' _ _ _ _ HM Hn Hp0 Hto Hlt E)
      as (noops & Htr & Hrun & _).
    exists noops. split; [exact Htr |]. split; [exact Hrun |].
    rewrite (steady_total (insert_noops_steady _ _ _ _ E)). exact Ht. }
  split; [| split].
  - unfold WaitForAvailableEntries. fold w1. rewrite Hu. cbn [negb].
    unfold wrap_around. rewrite Hwrap.
    destruct (wait_get_wrapped K fuel w1) as [[b w2] |] eqn:E1;
      [| discriminate].
    destruct (wait_get_wrapped_sound _ _ _ _ E1) as (n & Hk & Hres).
    destruct Hres as [(-> & _ & -> & Hm) | (-> & _ & -> & Hm & Hf)].
    + destruct (Hrange n) as [Ht Hp]. rewrite Ht.
      rewrite (int32_small
                 (total_entry_count_ (helper w1)
                  - put_ (helper (flushes K n w1))))
        by (unfold int32_range; lia).
      destruct (insert_noops K fuel _ (flushes K n w1)) as [w3 |] eqn:E2;
        [| discriminate].
      destruct (Hpad n fuel w3 E2) as (noops & Htr2 & Hrun & Ht3).
      intros H.
      destruct (get_entries_spec _ _ _ _ H) as ((rest & Htr3 & Hall3) & [_ Hkp]).
      exists n, noops, rest.
      split; [exact Hk |]. split; [exact Hall3 |]. right.
      destruct (must_wait_false _ Hm) as [Hg1 Hg2].
      split; [exact Hm |]. split; [exact Hg1 |]. split; [exact Hg2 |].
      split; [apply (proj2 (flushes_put_kept n w1)) |].
      split; [rewrite Htr3; cbn; rewrite Htr2, <- app_assoc; reflexivity |].
      split; [exact Hrun |].
      rewrite Hkp; [reflexivity |]. cbn. rewrite Ht3. lia.
    + intros H. injection H as <-.
      exists n, [], []. split; [exact Hk |]. split; [constructor |].
      left. repeat split; assumption.
  - intros n Hk. split.
    + intros Hm Hf Hfuel.
      unfold WaitForAvailableEntries. fold w1. rewrite Hu. cbn [negb].
      unfold wrap_around. rewrite Hwrap.
      rewrite (proj2 (wait_get_wrapped_complete n w1 fuel Hk) Hm Hf Hfuel).
      reflexivity.
    + intros Hm Hfuel Hfuel2. destruct (Hrange n) as [Ht Hp].
      unfold wrap_around. rewrite Hwrap.
      rewrite (proj1 (wait_get_wrapped_complete n w1 fuel Hk) Hm Hfuel), Ht.
      rewrite (int32_small
                 (total_entry_count_ (helper w1)
                  - put_ (helper (flushes K n w1))))
        by (unfold int32_range; lia).
      assert (Hn : total_entry_count_ (helper w1)
                   - put_ (helper (flushes K n w1)) < 2 ^ 31) by lia.
      assert (Hf2 : (Z.to_nat (total_entry_count_ (helper w1)
                               - put_ (helper (flushes K n w1)))
                     <= fuel)%nat) by lia.
      destruct (insert_noops_total fuel _ (flushes K n w1) HM Hn Hf2)
        as [w3 E2].
      rewrite E2.
      destruct (Hpad n fuel w3 E2) as (noops & Htr2 & Hrun & _).
      exists noops, (upd (set_put_ 0) w3).
      split; [reflexivity |]. split; [exact Htr2 |].
      split; [exact Hrun | reflexivity].
  - intros n. apply flushes_extends.
Qed.

(** ** InsertToken *)

Lemma Finish_true (fuel : nat) (w w' : World C) :
  Finish K fuel w = Some (true, w') -> put_ (helper w') = get_offset w'.
Proof.
  unfold Finish. destruct (negb (usable w)); [discriminate |].
  destruct (put_ (helper w) =? get_offset w) eqn:E.
  - intros H. injection H as <-. apply Z.eqb_eq. exact E.
  - intros H.
    destruct (Finish_loop_sound _ _ _ _ H) as (n & _ & _ & _ & Hd & _).
    apply Hd. reflexivity.
Qed.

Lemma InsertTokens_one_way (fuel n : nat) :
  forall (w : World C) vs w',
    InsertTokens K fuel n w = Some (vs, w') ->
    usable w = false -> usable w' = false.
Proof.
  induction n as [| n IH]; intros w vs w' H Hu; cbn [InsertTokens] in H.
  - injection H as <- <-. exact Hu.
  - destruct (InsertToken K fuel w) as [[v w1] |] eqn:E; [| discriminate].
    destruct (InsertTokens K fuel n w1) as [[vs1 w2] |] eqn:E2;
      [| discriminate].
    injection H as <- <-.
    eapply IH; [exact E2 |].
    destruct (InsertToken_result E) as (_ & Hus & _).
    rewrite Hus, (Allocate_unusable w Hu). exact Hu.
Qed.

(** C3 (amended).  A call of [InsertToken] that leaves the helper usable
    returns the counter advanced by one in 31 bits: the old value plus one,
    which is greater, unless the old value was [2^31 - 1], when it is 0.
    When 0 is returned and the space for the token command was obtained,
    [InsertToken] has run [Finish] after writing the command, and if that
    [Finish] succeeded then [put == get].  (When no space was obtained, or
    [Finish] failed, 0 is returned all the same.)  So the values returned by
    a run of calls that leaves the helper usable and does not reach the
    wrap are the old value plus 1, 2, 3 and so on. *)
Theorem InsertToken_advances :
  (forall fuel (w : World C) v w',
     InsertToken K fuel w = Some (v, w') ->
     usable w' = true ->
     0 <= token_ (helper w) < 2 ^ 31 ->
     v = token_ (helper w') /\
     v = (token_ (helper w) + 1) mod 2 ^ 31 /\
     (token_ (helper w) < 2 ^ 31 - 1 -> v = token_ (helper w) + 1) /\
     (token_ (helper w) = 2 ^ 31 - 1 -> v = 0) /\
     (forall cmd w3,
        v = 0 ->
        GetSpace K fuel (SetToken_entries K)
          (upd (set_token_ v) (snd (AllocateRingBuffer K w)))
        = Some (Some cmd, w3) ->
        exists ok,
          Finish K fuel (write_set_token cmd w3) = Some (ok, w') /\
          (ok = true -> put_ (helper w') = get_offset w'))) /\
  (forall fuel n (w : World C) vs w',
     InsertTokens K fuel n w = Some (vs, w') ->
     usable w' = true ->
     0 <= token_ (helper w) ->
     token_ (helper w) + Z.of_nat n < 2 ^ 31 ->
     vs = map (fun i => token_ (helper w) + Z.of_nat i) (seq 1 n)).
Proof.
  assert (Hone : forall fuel (w : World C) v w',
             InsertToken K fuel w = Some (v, w') ->
             usable w' = true ->
             0 <= token_ (helper w) < 2 ^ 31 ->
             v = token_ (helper w') /\
             v = (token_ (helper w) + 1) mod 2 ^ 31 /\
             usable (snd (AllocateRingBuffer K w)) = true /\
             v = Z.land (int32 (token_ (helper w) + 1)) 0x7FFFFFFF).
  { intros fuel w v w' H Hu Ht.
    destruct (InsertToken_result H) as (Hv & Hus & Htok).
    rewrite Hu in Hus. rewrite <- Hus in Htok.
    split; [exact Hv |].
    split; [rewrite Hv, Htok; apply token_increment; exact Ht |].
    split; [symmetry; exact Hus | rewrite Hv; exact Htok]. }
  split.
  - intros fuel w v w' H Hu Ht.
    destruct (Hone _ _ _ _ H Hu Ht) as (Hv & Hmod & Hu1 & Hland).
    split; [exact Hv |]. split; [exact Hmod |].
    split; [intros Hlt; rewrite Hmod; apply Z.mod_small; lia |].
    split; [intros Heq; rewrite Hmod, Heq; reflexivity |].
    intros cmd w3 Hv0 E.
    unfold InsertToken in H. rewrite Hu1 in H. cbn [negb] in H.
    rewrite Allocate_token, <- Hland, E in H.
    pose proof (GetSpace_installed (w := upd (set_token_ v)
                                          (snd (AllocateRingBuffer K w)))
                  Hu1 (Allocate_ring w Hu1) E) as Hs.
    assert (Htok3 : token_ (helper (write_set_token cmd w3)) = 0).
    { cbn. rewrite (steady_token Hs). cbn. exact Hv0. }
    rewrite Htok3 in H. cbn [Z.eqb] in H.
    destruct (Finish K fuel (write_set_token cmd w3)) as [[ok w5] |] eqn:EF;
      [| discriminate].
    injection H as _ <-. exists ok. split; [reflexivity |].
    intros ->. eapply Finish_true. exact EF.
  - intros fuel n. induction n as [| n IH]; intros w vs w' H Hu Hlo Hhi;
      cbn [InsertTokens] in H.
    + injection H as <- <-. reflexivity.
    + destruct (InsertToken K fuel w) as [[v w1] |] eqn:E; [| discriminate].
      destruct (InsertTokens K fuel n w1) as [[vs1 w2] |] eqn:E2;
        [| discriminate].
      injection H as <- <-.
      assert (Hu1 : usable w1 = true).
      { destruct (usable w1) eqn:Hu1; [reflexivity |].
        rewrite (InsertTokens_one_way _ _ _ _ _ E2 Hu1) in Hu. discriminate. }
      destruct (Hone _ _ _ _ E Hu1 ltac:(lia)) as (Hv & Hmod & _ & _).
      rewrite Z.mod_small in Hmod by lia.
      rewrite (IH w1 vs1 w2 E2 Hu) by (rewrite <- Hv, Hmod; lia).
      rewrite <- Hv, Hmod.
      cbn [seq map]. f_equal.
      rewrite <- (seq_shift n 1), map_map.
      apply map_ext. intros i. lia.
Qed.

End Properties.

(** * The properties on concrete runs *)

Lemma CalcImmediateEntries_contiguous_count_scenario_A :
  usable Scripted.scenario_A = true /\
  HaveRingBuffer Scripted.scenario_A = true /\
  cursors_in_range Scripted.scenario_A /\
  divisors_positive Scripted.constants /\
  immediate_entry_count_
    (helper (CalcImmediateEntries Scripted.constants 0 Scripted.scenario_A))
  = 8 - 3.
Proof.
  assert (Hc : cursors_in_range Scripted.scenario_A)
    by (unfold cursors_in_range, int32_range; cbn; lia).
  assert (Hd : divisors_positive Scripted.constants)
    by (unfold divisors_positive; cbn; lia).
  split; [reflexivity |]. split; [reflexivity |].
  split; [exact Hc |]. split; [exact Hd |].
  exact (proj1 (CalcImmediateEntries_contiguous_count Scripted.constants 0
                  Scripted.scenario_A eq_refl eq_refl Hc Hd) eq_refl).
Defined.

(** Scenario A: at capacity 8, [put] 3 and [get] 3 the contiguous count is
    5, not 4; and with automatic flushing on (the constructor's setting)
    the stored count is not the contiguous count. *)
Lemma CalcImmediateEntries_scenario_A_counterexample :
  usable Scripted.scenario_A = true /\
  HaveRingBuffer Scripted.scenario_A = true /\
  total_entry_count_ (helper Scripted.scenario_A) = 8 /\
  put_ (helper Scripted.scenario_A) = 3 /\
  get_offset Scripted.scenario_A = 3 /\
  immediate_entry_count_
    (helper (CalcImmediateEntries Scripted.constants 0 Scripted.scenario_A))
  = 5 /\
  immediate_entry_count_
    (helper (CalcImmediateEntries Scripted.constants 0 Scripted.scenario_A))
  <> 4 /\
  immediate_entry_count_
    (helper (CalcImmediateEntries Scripted.constants 0
               Scripted.scenario_A_auto))
  <> 8 - 3.
Proof. vm_compute. repeat split; discriminate. Qed.

Lemma CalcImmediateEntries_forces_flush_four_pending :
  usable Scripted.four_pending = true /\
  HaveRingBuffer Scripted.four_pending = true /\
  flush_automatically_ (helper Scripted.four_pending) = true /\
  cursors_in_range Scripted.four_pending /\
  divisors_positive Scripted.constants /\
  immediate_entry_count_
    (helper (CalcImmediateEntries Scripted.constants 2 Scripted.four_pending))
  = 0.
Proof.
  assert (Hc : cursors_in_range Scripted.four_pending)
    by (unfold cursors_in_range, int32_range; cbn; lia).
  assert (Hd : divisors_positive Scripted.constants)
    by (unfold divisors_positive; cbn; lia).
  split; [reflexivity |]. split; [reflexivity |]. split; [reflexivity |].
  split; [exact Hc |]. split; [exact Hd |].
  refine (proj1 (proj2 (proj2
            (CalcImmediateEntries_forces_flush Scripted.constants 2
               Scripted.four_pending eq_refl eq_refl eq_refl Hc Hd))) _ _).
  - reflexivity.
  - vm_compute. discriminate.
Defined.

(** With nothing pending and a limit of 0, [pending] has reached the limit
    and yet three entries are writable; and of the divisors 2 and 16 the
    smaller gives the higher threshold. *)
Lemma CalcImmediateEntries_idle_counterexample :
  usable Scripted.idle = true /\
  HaveRingBuffer Scripted.idle = true /\
  flush_automatically_ (helper Scripted.idle) = true /\
  pending_entries 0 8 0 = 0 /\
  flush_limit 8 (flush_divisor Scripted.constants 0 0) = 0 /\
  immediate_entry_count_
    (helper (CalcImmediateEntries Scripted.constants 3 Scripted.idle))
  <> 0 /\
  2 < 16 /\ ~ flush_limit 8 2 < flush_limit 8 16.
Proof. vm_compute. repeat split; discriminate. Qed.

Lemma WaitForToken_stale_scenario_D :
  5 > token_ (helper Scripted.scenario_D) /\
  WaitForToken Scripted.constants 0 5 Scripted.scenario_D
  = Some (Returned, Scripted.scenario_D).
Proof.
  split; [reflexivity |].
  apply (WaitForToken_stale Scripted.constants 0 5 Scripted.scenario_D).
  reflexivity.
Defined.

Lemma WaitForToken_empty_ring_is_fatal_scenario_C :
  last_token_read Scripted.scenario_C < 1 /\
  get_offset Scripted.scenario_C = put_ (helper Scripted.scenario_C) /\
  WaitForToken Scripted.constants 5 1 Scripted.scenario_C
  = Some (Aborted, emit LogFatal Scripted.scenario_C).
Proof.
  split; [reflexivity |]. split; [reflexivity |].
  destruct (WaitForToken_empty_ring_is_fatal Scripted.constants 5 1
              Scripted.scenario_C) as [_ H].
  - reflexivity.
  - reflexivity.
  - apply H; [reflexivity | reflexivity | cbn; lia].
Defined.

Lemma Flush_elision_three_unsent :
  usable Scripted.three_unsent = true /\
  last_put_sent_ (helper (wrap_put Scripted.three_unsent))
  <> put_ (helper (wrap_put Scripted.three_unsent)) /\
  trace (Flush Scripted.constants Scripted.three_unsent) = [CallFlush 3].
Proof.
  assert (Hne : last_put_sent_ (helper (wrap_put Scripted.three_unsent))
                <> put_ (helper (wrap_put Scripted.three_unsent)))
    by (cbn; lia).
  split; [reflexivity |]. split; [exact Hne |].
  exact (proj1 (proj2 (Flush_elision Scripted.constants Scripted.three_unsent)
                  eq_refl Hne)).
Defined.

(** A helper that wrote three entries, lost its ring to a lost context and
    could not allocate another is unusable with unsent work: [Flush] sends
    nothing and records nothing. *)
Lemma Flush_unusable_counterexample :
  run_ops Scripted.constants 5
    [OpInitialize 32; OpGetSpace 3; OpFreeRingBuffer; OpAllocateRingBuffer]
    Scripted.fresh_lost
  = Some Scripted.unsent_unusable /\
  last_put_sent_ (helper (wrap_put Scripted.unsent_unusable))
  <> put_ (helper (wrap_put Scripted.unsent_unusable)) /\
  trace (Flush Scripted.constants Scripted.unsent_unusable)
  = trace Scripted.unsent_unusable /\
  Flush Scripted.constants Scripted.unsent_unusable = Scripted.unsent_unusable.
Proof. vm_compute. repeat split; discriminate. Qed.

Lemma Finish_drains_drain :
  usable Scripted.drain = true /\
  Finish Scripted.constants 5 Scripted.drain
  = Some (true, flushes Scripted.constants 2 Scripted.drain) /\
  usable Scripted.drain_fails = true /\
  Finish Scripted.constants 5 Scripted.drain_fails
  = Some (false, flushes Scripted.constants 2 Scripted.drain_fails).
Proof.
  split; [reflexivity |]. split; [| split; [reflexivity |]].
  - refine (proj2 (proj2 (Finish_drains Scripted.constants Scripted.drain
                            eq_refl) _) 1%nat 5%nat _ _ _).
    + cbn. lia.
    + intros [| k] Hk; [| lia].
      split; [vm_compute; reflexivity | vm_compute; discriminate].
    + right. vm_compute. reflexivity.
    + lia.
  - refine (proj2 (proj2 (Finish_drains Scripted.constants
                            Scripted.drain_fails eq_refl) _)
              1%nat 5%nat _ _ _).
    + cbn. lia.
    + intros [| k] Hk; [| lia].
      split; [vm_compute; reflexivity | vm_compute; discriminate].
    + left. vm_compute. reflexivity.
    + lia.
Defined.



Lemma WaitForToken_negative_scenario_C :
  -1 < 0 /\
  WaitForToken Scripted.constants 5 (-1) Scripted.scenario_C
  = Some (Returned, Scripted.scenario_C).
Proof.
  split; [reflexivity |].
  apply (proj1 (@WaitForToken_negative _ Scripted.command_buffer
                  Scripted.constants)).
  reflexivity.
Defined.

Lemma wrap_around_is_safe_scenario_B :
  usable (snd (AllocateRingBuffer Scripted.constants Scripted.scenario_B))
  = true /\
  0 < kMaxSize Scripted.constants /\
  int32 (6 + 4) > 8 /\
  WaitForAvailableEntries Scripted.constants 8 4 Scripted.scenario_B
  = Some Scripted.scenario_B_end /\
  trace Scripted.scenario_B_end
  = [CallFlushSync 6 7; CallFlushSync 6 0; WroteNoop 6 2 3;
     CallFlush 0; CallFlushSync 0 3] /\
  (forall k, (k < 2)%nat ->
     keeps_waiting Scripted.constants
       (snd (AllocateRingBuffer Scripted.constants Scripted.scenario_B)) k) /\
  must_wait
    (flushes Scripted.constants 2
       (snd (AllocateRingBuffer Scripted.constants Scripted.scenario_B)))
  = false /\
  exists noops w3,
    wrap_around Scripted.constants 8 4
      (snd (AllocateRingBuffer Scripted.constants Scripted.scenario_B))
    = Some (true, w3) /\
    trace w3
    = trace (flushes Scripted.constants 2
               (snd (AllocateRingBuffer Scripted.constants
                       Scripted.scenario_B))) ++ noops /\
    noop_run
      (get_offset
         (flushes Scripted.constants 2
            (snd (AllocateRingBuffer Scripted.constants
                    Scripted.scenario_B))))
      (put_ (helper
               (flushes Scripted.constants 2
                  (snd (AllocateRingBuffer Scripted.constants
                          Scripted.scenario_B)))))
      (total_entry_count_
         (helper (snd (AllocateRingBuffer Scripted.constants
                         Scripted.scenario_B))))
      noops /\
    put_ (helper w3) = 0.
Proof.
  assert (Hrun : WaitForAvailableEntries Scripted.constants 8 4
                   Scripted.scenario_B
                 = Some Scripted.scenario_B_end)
    by (vm_compute; reflexivity).
  assert (Hk : forall k, (k < 2)%nat ->
                 keeps_waiting Scripted.constants
                   (snd (AllocateRingBuffer Scripted.constants
                           Scripted.scenario_B)) k).
  { intros [| [| k]] Hlt; [| | lia]; split; vm_compute; reflexivity. }
  assert (Hm : must_wait
                 (flushes Scripted.constants 2
                    (snd (AllocateRingBuffer Scripted.constants
                            Scripted.scenario_B)))
               = false)
    by (vm_compute; reflexivity).
  split; [reflexivity |]. split; [reflexivity |].
  split; [vm_compute; reflexivity |]. split; [exact Hrun |].
  split; [vm_compute; reflexivity |].
  split; [exact Hk |]. split; [exact Hm |].
  destruct (wrap_around_is_safe Scripted.constants 8 4 Scripted.scenario_B
              Scripted.scenario_B_end) as (_ & H & _).
  - reflexivity.
  - reflexivity.
  - cbn. lia.
  - cbn. lia.
  - vm_compute. reflexivity.
  - apply (proj2 (H 2%nat Hk) Hm); [lia | cbn; lia].
Defined.

(** With [put] at 6 of 8 and the observed [get] at 3, a reservation of 4
    entries writes the no-op record at offset 6 at once: the observed [get]
    is behind [put], not past it, and no synchronous flush comes before the
    record.  With the observed [get] at 7, past [put], the helper does not
    pad: it waits, through [get] at 0, until [get] is 3, and pads then. *)
Lemma wrap_pads_behind_put_counterexample :
  int32 (6 + 4) > 8 /\
  get_offset Scripted.scenario_B_behind = 3 /\
  put_ (helper Scripted.scenario_B_behind) = 6 /\
  ~ 3 > 6 /\
  WaitForAvailableEntries Scripted.constants 5 4 Scripted.scenario_B_behind
  = Some Scripted.scenario_B_behind_end /\
  trace Scripted.scenario_B_behind_end
  = [WroteNoop 6 2 3; CallFlush 0; CallFlushSync 0 3] /\
  put_ (helper Scripted.scenario_B_behind_end) = 0 /\
  get_offset Scripted.scenario_B = 7 /\
  put_ (helper Scripted.scenario_B) = 6 /\
  7 > 6 /\
  WaitForAvailableEntries Scripted.constants 5 4 Scripted.scenario_B
  = Some Scripted.scenario_B_end /\
  trace Scripted.scenario_B_end
  = [CallFlushSync 6 7; CallFlushSync 6 0; WroteNoop 6 2 3;
     CallFlush 0; CallFlushSync 0 3].
Proof.
  split; [vm_compute; reflexivity |].
  split; [vm_compute; reflexivity |].
  split; [vm_compute; reflexivity |].
  split; [lia |].
  split; [vm_compute; reflexivity |].
  split; [vm_compute; reflexivity |].
  split; [vm_compute; reflexivity |].
  split; [vm_compute; reflexivity |].
  split; [vm_compute; reflexivity |].
  split; [lia |].
  split; vm_compute; reflexivity.
Qed.

Lemma InsertToken_advances_wrap_token :
  InsertToken Scripted.constants 5 Scripted.wrap_token
  = Some (0, Scripted.wrap_token_end) /\
  usable Scripted.wrap_token_end = true /\
  0 <= token_ (helper Scripted.wrap_token) < 2 ^ 31 /\
  0 = token_ (helper Scripted.wrap_token_end) /\
  0 = (token_ (helper Scripted.wrap_token) + 1) mod 2 ^ 31.
Proof.
  assert (Ht : 0 <= token_ (helper Scripted.wrap_token) < 2 ^ 31)
    by (cbn; lia).
  assert (Hrun : InsertToken Scripted.constants 5 Scripted.wrap_token
                 = Some (0, Scripted.wrap_token_end))
    by (vm_compute; reflexivity).
  assert (Hu : usable Scripted.wrap_token_end = true)
    by (vm_compute; reflexivity).
  split; [exact Hrun |]. split; [exact Hu |]. split; [exact Ht |].
  pose proof (proj1 (@InsertToken_advances _ Scripted.command_buffer
                       Scripted.constants)
                5%nat Scripted.wrap_token 0 Scripted.wrap_token_end
                Hrun Hu Ht) as (H1 & H2 & _).
  split; [exact H1 | exact H2].
Defined.

(** The counter wraps while the service answers the wait for space with an
    error: [InsertToken] hands out 0 on a helper that is still usable,
    after one failed [FlushSync] and no token command, with the ring not
    drained and the service at token 5. *)
Lemma InsertToken_wrap_counterexample :
  usable Scripted.wrap_token_failed = true /\
  token_ (helper Scripted.wrap_token_failed) = 2 ^ 31 - 1 /\
  InsertToken Scripted.constants 5 Scripted.wrap_token_failed
  = Some (0, Scripted.wrap_token_failed_end) /\
  usable Scripted.wrap_token_failed_end = true /\
  trace Scripted.wrap_token_failed_end = [CallFlushSync 7 0] /\
  put_ (helper Scripted.wrap_token_failed_end)
  <> get_offset Scripted.wrap_token_failed_end /\
  last_token_read Scripted.wrap_token_failed_end = 5.
Proof. vm_compute. repeat split; discriminate. Qed.

(** * Further properties of the helper *)

Section Further.

Context {C : Type} {CB : CommandBuffer C}.
Variable K : Constants.

(** ** Release and allocation of the ring *)

Lemma Calc_no_ring (n : Z) (w : World C) :
  HaveRingBuffer w = false ->
  CalcImmediateEntries K n w = upd (set_immediate_entry_count_ 0) w.
Proof.
  intros Hr. unfold CalcImmediateEntries. rewrite Hr.
  cbn [negb]. rewrite orb_true_r. reflexivity.
Qed.

Lemma Calc_unusable (n : Z) (w : World C) :
  usable w = false ->
  CalcImmediateEntries K n w = upd (set_immediate_entry_count_ 0) w.
Proof. intros Hu. unfold CalcImmediateEntries. rewrite Hu. reflexivity. Qed.

Lemma FreeResources_trace (w : World C) :
  trace (FreeResources K w) =
    trace w ++
    (if HaveRingBuffer w
     then [CallDestroyTransferBuffer (ring_buffer_id_ (helper w))]
     else []).
Proof.
  unfold FreeResources. destruct (HaveRingBuffer w).
  - rewrite Calc_trace. reflexivity.
  - now rewrite app_nil_r.
Qed.

(** X1.  [FreeResources] is idempotent: after it no ring is installed, so a
    second call changes nothing and sends nothing.  The first call sends
    [DestroyTransferBuffer] for the installed id, once, and nothing when no
    ring was installed. *)
Theorem FreeResources_idempotent (w : World C) :
  HaveRingBuffer (FreeResources K w) = false /\
  FreeResources K (FreeResources K w) = FreeResources K w /\
  trace (FreeResources K w) =
    trace w ++
    (if HaveRingBuffer w
     then [CallDestroyTransferBuffer (ring_buffer_id_ (helper w))]
     else []) /\
  (HaveRingBuffer w = true ->
   immediate_entry_count_ (helper (FreeResources K w)) = 0).
Proof.
  assert (Hno : HaveRingBuffer (FreeResources K w) = false).
  { unfold FreeResources. destruct (HaveRingBuffer w) eqn:Hr; [| exact Hr].
    rewrite Calc_no_ring by reflexivity. reflexivity. }
  split; [exact Hno |]. split; [| split].
  - unfold FreeResources at 1. rewrite Hno. reflexivity.
  - apply FreeResources_trace.
  - intros Hr. unfold FreeResources. rewrite Hr.
    rewrite Calc_no_ring by reflexivity. reflexivity.
Qed.

(** X2.  [AllocateRingBuffer] is idempotent: whatever the first call did, a
    second call returns the same result without a request and without a
    change. *)
Theorem AllocateRingBuffer_idempotent (w : World C) :
  AllocateRingBuffer K (snd (AllocateRingBuffer K w))
  = AllocateRingBuffer K w.
Proof.
  pose proof (Allocate_result K w) as Hres.
  pose proof (Allocate_ring K w) as Hring.
  destruct (AllocateRingBuffer K w) as [b w1]. cbn [fst snd] in *. subst b.
  destruct (usable w1) eqn:Hu.
  - apply Allocate_installed; [exact Hu | apply Hring; reflexivity].
  - apply Allocate_unusable. exact Hu.
Qed.

(** X3.  On a usable helper without a ring, whose size in bytes is not
    negative (and holds at least one entry when the helper flushes
    automatically, so that line 71 does not divide by zero),
    [AllocateRingBuffer] succeeds exactly when the service grants a buffer
    id that is not negative and the ring does not have more entries than
    the service reports.  The number of entries is the quotient of the size
    by the size of an entry, as the unsigned division of line 112 gives it.
    On success the ring is installed under that id with [put_] taken from
    the service, after the three requests [CreateTransferBuffer],
    [SetGetBuffer], [GetState] in this order; [last_put_sent_] and the
    token are what they were. *)
Theorem AllocateRingBuffer_succeeds_iff (w : World C) :
  usable w = true -> HaveRingBuffer w = false ->
  let size := ring_buffer_size_ (helper w) in
  let created := CreateTransferBuffer size (command_buffer_ w) in
  let id := fst created in
  let state := fst (GetState (SetGetBuffer id (snd created))) in
  let entries := size / sizeof_CommandBufferEntry K in
  let r := AllocateRingBuffer K w in
  0 < sizeof_CommandBufferEntry K -> 0 <= size < 2 ^ 31 ->
  (flush_automatically_ (helper w) = true ->
   divisors_positive K /\ sizeof_CommandBufferEntry K <= size) ->
  (forall bits, 31 <= bits ->
     entries = unsigned_quotient bits size (sizeof_CommandBufferEntry K)) /\
  (fst r = true <-> 0 <= id /\ entries <= num_entries state) /\
  (fst r = true ->
   (flush_automatically_ (helper (snd r)) = true ->
    0 < total_entry_count_ (helper (snd r))) /\
   HaveRingBuffer (snd r) = true /\
   ring_buffer_id_ (helper (snd r)) = id /\
   total_entry_count_ (helper (snd r)) = entries /\
   put_ (helper (snd r)) = put_offset state /\
   last_put_sent_ (helper (snd r)) = last_put_sent_ (helper w) /\
   token_ (helper (snd r)) = token_ (helper w) /\
   trace (snd r) =
     trace w ++
     [CallCreateTransferBuffer size; CallSetGetBuffer id; CallGetState]).
Proof.
  intros Hu Hr. cbv zeta. intros Hd Hs Hauto.
  assert (Hq : int32 (Z.quot (ring_buffer_size_ (helper w))
                        (sizeof_CommandBufferEntry K))
               = ring_buffer_size_ (helper w) / sizeof_CommandBufferEntry K)
    by (apply (unsigned_quotient_signed 31); [lia | exact Hd | exact Hs]).
  split.
  { intros bits Hb.
    destruct (unsigned_quotient_signed bits _ _ Hb Hd Hs) as (-> & H & _).
    symmetry. exact H. }
  unfold AllocateRingBuffer. rewrite Hu, Hr, Hq.
  cbn [negb].
  destruct (fst (CreateTransferBuffer _ _) <? 0) eqn:Hid;
    [apply Z.ltb_lt in Hid | apply Z.ltb_ge in Hid].
  { cbn [fst snd]. split; [split; [discriminate | lia] | discriminate]. }
  cbn [command_buffer_ emit with_command_buffer upd helper
         ring_buffer_size_ set_ring_buffer_id_].
  destruct (_ >? _) eqn:Hn;
    [apply Z.gtb_lt in Hn
    | rewrite Z.gtb_ltb in Hn; apply Z.ltb_ge in Hn].
  { cbn [fst snd]. split; [split; [discriminate | lia] | discriminate]. }
  cbn [fst snd]. split; [split; [intros _; split; assumption | reflexivity] |].
  intros _.
  match goal with
  | |- context [CalcImmediateEntries K 0 ?x] =>
      destruct (CalcImmediateEntries_frame K 0 x) as [m ->]
  end.
  unfold HaveRingBuffer. cbn. rewrite <- !app_assoc.
  split.
  { intros Ha. destruct (Hauto Ha) as [_ Hle].
    apply (unsigned_quotient_signed 31); [lia | exact Hd | exact Hs |].
    exact Hle. }
  repeat split.
  apply negb_true_iff, Z.eqb_neq. lia.
Qed.

(** X4.  For a size in bytes that is not negative: when the service grants
    a buffer but reports fewer entries than the ring has,
    [AllocateRingBuffer] fails and the helper is unusable with the buffer
    still installed: no [DestroyTransferBuffer] was sent.  [FreeResources]
    sends it afterwards. *)
Theorem AllocateRingBuffer_oversize (w : World C) :
  usable w = true -> HaveRingBuffer w = false ->
  let size := ring_buffer_size_ (helper w) in
  let created := CreateTransferBuffer size (command_buffer_ w) in
  let id := fst created in
  let state := fst (GetState (SetGetBuffer id (snd created))) in
  let r := AllocateRingBuffer K w in
  0 < sizeof_CommandBufferEntry K -> 0 <= size < 2 ^ 31 ->
  0 <= id ->
  size / sizeof_CommandBufferEntry K > num_entries state ->
  fst r = false /\
  usable (snd r) = false /\
  HaveRingBuffer (snd r) = true /\
  immediate_entry_count_ (helper (snd r)) = 0 /\
  trace (snd r) =
    trace w ++
    [CallCreateTransferBuffer size; CallSetGetBuffer id; CallGetState] /\
  trace (FreeResources K (snd r)) =
    trace (snd r) ++ [CallDestroyTransferBuffer id].
Proof.
  intros Hu Hr. cbv zeta. intros Hd Hs Hid Hn.
  assert (Hq : int32 (Z.quot (ring_buffer_size_ (helper w))
                        (sizeof_CommandBufferEntry K))
               = ring_buffer_size_ (helper w) / sizeof_CommandBufferEntry K)
    by (apply (unsigned_quotient_signed 31); [lia | exact Hd | exact Hs]).
  unfold AllocateRingBuffer. rewrite Hu, Hr, Hq. cbn [negb].
  replace (fst (CreateTransferBuffer (ring_buffer_size_ (helper w))
                  (command_buffer_ w)) <? 0) with false
    by (symmetry; apply Z.ltb_ge; lia).
  cbn [command_buffer_ emit with_command_buffer upd helper
         ring_buffer_size_ set_ring_buffer_id_].
  apply Z.gtb_gt in Hn. rewrite Hn. cbn [fst snd].
  set (w4 := emit CallGetState _).
  assert (Hring : HaveRingBuffer (ClearUsable K w4) = true).
  { unfold ClearUsable. rewrite (steady_ring (Calc_steady K 0 _)).
    unfold HaveRingBuffer. cbn. apply negb_true_iff, Z.eqb_neq. lia. }
  split; [reflexivity |].
  split; [apply ClearUsable_unusable |].
  split; [exact Hring |].
  split; [| split].
  - unfold ClearUsable. rewrite Calc_unusable by reflexivity. reflexivity.
  - rewrite ClearUsable_trace. unfold w4. cbn. rewrite <- !app_assoc.
    reflexivity.
  - rewrite FreeResources_trace, Hring. unfold ClearUsable.
    destruct (CalcImmediateEntries_frame K 0 (upd (set_usable_ false) w4))
      as [m ->].
    reflexivity.
Qed.

(** X5.  A helper that is not usable is inert: [AllocateRingBuffer],
    [FlushSync] and [Finish] return [false], [InsertToken] returns the
    counter as it is, [WaitForAvailableEntries] and [WaitForToken] return,
    all without a request, without a record and without a change; [Flush]
    sends nothing; and the writable count that [CalcImmediateEntries]
    stores is 0. *)
Theorem unusable_helper_is_inert (fuel : nat) (w : World C) :
  usable w = false ->
  AllocateRingBuffer K w = (false, w) /\
  FlushSync K w = (false, w) /\
  Finish K fuel w = Some (false, w) /\
  InsertToken K fuel w = Some (token_ (helper w), w) /\
  (forall count, WaitForAvailableEntries K fuel count w = Some w) /\
  (forall tok, WaitForToken K fuel tok w = Some (Returned, w)) /\
  trace (Flush K w) = trace w /\
  command_buffer_ (Flush K w) = command_buffer_ w /\
  (forall n,
     immediate_entry_count_ (helper (CalcImmediateEntries K n w)) = 0).
Proof.
  intros Hu.
  pose proof (Allocate_unusable K w Hu) as Ha.
  split; [exact Ha |].
  split; [unfold FlushSync; rewrite Hu; reflexivity |].
  split; [unfold Finish; rewrite Hu; reflexivity |].
  split; [unfold InsertToken; rewrite Ha; cbn [snd]; rewrite Hu; reflexivity |].
  split; [intros count; unfold WaitForAvailableEntries; rewrite Ha;
          cbn [snd]; rewrite Hu; reflexivity |].
  split; [intros tok; unfold WaitForToken; rewrite Hu; reflexivity |].
  assert (Hf : Flush K w = wrap_put w).
  { unfold Flush. rewrite (steady_usable (wrap_put_steady w)), Hu.
    reflexivity. }
  rewrite Hf.
  split; [apply wrap_put_trace |]. split; [apply wrap_put_command_buffer |].
  intros n. rewrite Calc_unusable by exact Hu. reflexivity.
Qed.

(** ** The writable count stays inside the ring *)

Lemma stored_count_within_ring (waiting_count : Z) (w : World C) :
  cursors_in_range w -> divisors_positive K ->
  get_offset w <= total_entry_count_ (helper w) ->
  let h := helper w in
  let count :=
    immediate_entry_count_ (helper (CalcImmediateEntries K waiting_count w)) in
  put_ h + count <= total_entry_count_ h /\
  (get_offset w > put_ h -> put_ h + count < get_offset w) /\
  (0 <= waiting_count ->
   put_ h < total_entry_count_ h \/ get_offset w <> 0 ->
   0 <= count).
Proof.
  intros Hc Hd Hget. cbv zeta.
  pose proof Hc as (Ht & Hp & Hl & Hg). cbv zeta in Ht, Hp, Hl.
  destruct (usable w) eqn:Hu;
    [| rewrite Calc_unusable by exact Hu; cbn; lia].
  destruct (HaveRingBuffer w) eqn:Hr;
    [| rewrite Calc_no_ring by exact Hr; cbn; lia].
  rewrite (CalcImmediateEntries_writable K waiting_count w Hu Hr Hc Hd).
  unfold writable_entries. cbv zeta.
  generalize (Z.quot (total_entry_count_ (helper w))
                (flush_divisor K (get_offset w) (last_put_sent_ (helper w)))).
  generalize ((put_ (helper w) + total_entry_count_ (helper w)
               - last_put_sent_ (helper w)) mod total_entry_count_ (helper w)).
  intros pending limit.
  destruct (get_offset w >? put_ (helper w)) eqn:Hgp;
    [apply Z.gtb_lt in Hgp
    | rewrite Z.gtb_ltb in Hgp; apply Z.ltb_ge in Hgp];
    destruct (get_offset w =? 0) eqn:Hg0;
    [apply Z.eqb_eq in Hg0 | apply Z.eqb_neq in Hg0
    | apply Z.eqb_eq in Hg0 | apply Z.eqb_neq in Hg0];
    destruct (flush_automatically_ (helper w)); try lia;
    destruct (_ && _); lia.
Qed.

(** X6.  With the service's [get] inside the ring, whatever
    [CalcImmediateEntries] stores, the run it allows ends at or before the
    physical end of the ring, and strictly before [get] when [get] is ahead
    of [put_]; and it is not negative when [waiting_count] is not, unless
    [put_] sits on the physical end with [get] at 0. *)
Theorem CalcImmediateEntries_within_ring (waiting_count : Z) (w : World C) :
  cursors_in_range w -> divisors_positive K ->
  get_offset w <= total_entry_count_ (helper w) ->
  let h := helper w in
  let count :=
    immediate_entry_count_ (helper (CalcImmediateEntries K waiting_count w)) in
  put_ h + count <= total_entry_count_ h /\
  (get_offset w > put_ h -> put_ h + count < get_offset w) /\
  (0 <= waiting_count ->
   put_ h < total_entry_count_ h \/ get_offset w <> 0 ->
   0 <= count).
Proof. apply stored_count_within_ring. Qed.

(** X7.  The automatic-flush limit never goes below [waiting_count]: when
    no flush is due (nothing is pending, or less than the limit), a
    request of [waiting_count] entries that fits the contiguous run is
    granted in full.  Right after a flush ([last_put_sent_ == put_])
    nothing is pending. *)
Theorem CalcImmediateEntries_honours_waiting_count
  (waiting_count : Z) (w : World C) :
  usable w = true -> HaveRingBuffer w = true ->
  cursors_in_range w -> divisors_positive K ->
  let h := helper w in
  let get := get_offset w in
  let contiguous :=
    if get >? put_ h then get - put_ h - 1
    else total_entry_count_ h - put_ h - (if get =? 0 then 1 else 0) in
  let limit :=
    Z.quot (total_entry_count_ h)
      (if get =? last_put_sent_ h then kAutoFlushSmall K
       else kAutoFlushBig K) in
  let pending :=
    (put_ h + total_entry_count_ h - last_put_sent_ h)
      mod total_entry_count_ h in
  let count :=
    immediate_entry_count_ (helper (CalcImmediateEntries K waiting_count w)) in
  waiting_count <= contiguous ->
  (pending = 0 \/ pending < limit -> waiting_count <= count) /\
  (last_put_sent_ h = put_ h -> waiting_count <= count).
Proof.
  intros Hu Hr Hc Hd. cbv zeta.
  pose proof Hc as (Ht & Hp & Hl & Hg). cbv zeta in Ht, Hp, Hl.
  rewrite (CalcImmediateEntries_writable K waiting_count w Hu Hr Hc Hd).
  unfold writable_entries, flush_divisor.
  set (contiguous := if get_offset w >? _ then _ else _).
  set (limit := Z.quot _ _).
  set (pending := _ mod _).
  intros Hfit.
  assert (Hgen : pending = 0 \/ pending < limit ->
                 waiting_count <=
                 (if flush_automatically_ (helper w)
                  then if (0 <? pending) && (limit <=? pending) then 0
                       else Z.min contiguous
                              (Z.max (limit - pending) waiting_count)
                  else contiguous)).
  { intros Hnot. destruct (flush_automatically_ (helper w)); [| exact Hfit].
    replace ((0 <? pending) && (limit <=? pending)) with false; [lia |].
    symmetry. apply andb_false_iff.
    destruct Hnot as [H0 | Hlt];
      [left; apply Z.ltb_ge; lia | right; apply Z.leb_gt; exact Hlt]. }
  split; [exact Hgen |].
  intros Hsent. apply Hgen. left. unfold pending. rewrite Hsent.
  replace (put_ (helper w) + total_entry_count_ (helper w) - put_ (helper w))
    with (total_entry_count_ (helper w)) by lia.
  apply Z_mod_same_full.
Qed.

(** ** What the waits establish *)

Lemma wait_get_wrapped_failed (fuel : nat) :
  forall w w' : World C,
    wait_get_wrapped K fuel w = Some (false, w') ->
    stopped_by_failed_flush K w'.
Proof.
  induction fuel as [| fuel IH]; intros w w' H; cbn [wait_get_wrapped] in H;
    destruct ((get_offset w >? put_ (helper w)) || (get_offset w =? 0));
    try discriminate.
  destruct (fst (FlushSync K w)) eqn:Hok; cbn [negb] in H.
  - eapply IH. exact H.
  - injection H as <-. exists w. split; [exact Hok | reflexivity].
Qed.

Lemma wait_entries_post (fuel : nat) (count : Z) :
  forall w w' : World C,
    wait_entries K fuel count w = Some w' ->
    count <= immediate_entry_count_ (helper w') \/
    stopped_by_failed_flush K w'.
Proof.
  induction fuel as [| fuel IH]; intros w w' H; cbn [wait_entries] in H;
    destruct (immediate_entry_count_ (helper w) <? count) eqn:Hlt;
    try discriminate;
    try (injection H as <-; left; apply Z.ltb_ge; exact Hlt).
  destruct (fst (FlushSync K w)) eqn:Hok; cbn [negb] in H.
  - eapply IH. exact H.
  - injection H as <-. right. exists w. split; [exact Hok | reflexivity].
Qed.

(** X8.  When [WaitForAvailableEntries] returns on a helper that is usable
    after the allocation step, either [count] entries are writable or the
    function returned early because a [FlushSync] failed; the helper is
    still usable in both cases. *)
Theorem WaitForAvailableEntries_post
  (fuel : nat) (count : Z) (w w' : World C) :
  WaitForAvailableEntries K fuel count w = Some w' ->
  usable (snd (AllocateRingBuffer K w)) = true ->
  usable w' = true /\
  (count <= immediate_entry_count_ (helper w') \/
   stopped_by_failed_flush K w').
Proof.
  intros H Hu.
  split; [rewrite (WaitForAvailableEntries_usable K H); exact Hu |].
  unfold WaitForAvailableEntries in H. rewrite Hu in H. cbn [negb] in H.
  destruct (wrap_around K fuel count _) as [[[|] w2] |] eqn:E;
    [| | discriminate].
  - unfold get_entries in H.
    destruct (immediate_entry_count_
                (helper (CalcImmediateEntries K count w2)) <? count) eqn:H1;
      [| injection H as <-; left; apply Z.ltb_ge; exact H1].
    destruct (immediate_entry_count_
                (helper (CalcImmediateEntries K count
                           (Flush K (CalcImmediateEntries K count w2))))
              <? count) eqn:H2;
      [| injection H as <-; left; apply Z.ltb_ge; exact H2].
    eapply wait_entries_post. exact H.
  - injection H as <-. right.
    unfold wrap_around in E.
    destruct (int32 _ >? _); [| discriminate].
    destruct (wait_get_wrapped K fuel _) as [[[|] w3] |] eqn:E1;
      try discriminate.
    + destruct (insert_noops K fuel _ w3); discriminate.
    + injection E as <-. eapply wait_get_wrapped_failed. exact E1.
Qed.

Lemma WaitForToken_loop_post (fuel : nat) (tok : Z) :
  forall w w' : World C,
    WaitForToken_loop K fuel tok w = Some (Returned, w') ->
    tok <= last_token_read w' \/ stopped_by_failed_flush K w'.
Proof.
  induction fuel as [| fuel IH]; intros w w' H; cbn [WaitForToken_loop] in H;
    destruct (last_token_read w <? tok) eqn:Hlt;
    try (injection H as <-; left; apply Z.ltb_ge; exact Hlt);
    destruct (get_offset w =? put_ (helper w));
    try discriminate.
  destruct (fst (FlushSync K w)) eqn:Hok; cbn [negb] in H.
  - eapply IH. exact H.
  - injection H as <-. right. exists w. split; [exact Hok | reflexivity].
Qed.

(** X9.  When [WaitForToken] returns (rather than aborts) from a wait it
    was entitled to ([0 <= token <= token_] on a usable helper with a
    ring), either the service has acknowledged the token or the wait
    ended because a [FlushSync] failed. *)
Theorem WaitForToken_post (fuel : nat) (tok : Z) (w w' : World C) :
  WaitForToken K fuel tok w = Some (Returned, w') ->
  usable w = true -> HaveRingBuffer w = true ->
  0 <= tok <= token_ (helper w) ->
  tok <= last_token_read w' \/ stopped_by_failed_flush K w'.
Proof.
  intros H Hu Hr [Hlo Hhi]. unfold WaitForToken in H.
  rewrite Hu, Hr in H. cbn [negb orb] in H.
  replace (tok <? 0) with false in H by (symmetry; apply Z.ltb_ge; lia).
  replace (tok >? token_ (helper w)) with false in H
    by (symmetry; rewrite Z.gtb_ltb; apply Z.ltb_ge; lia).
  eapply WaitForToken_loop_post. exact H.
Qed.

(** X10.  When the request fits before the physical end ([put + count]
    does not exceed the capacity), [WaitForAvailableEntries] writes no
    no-op record: all it adds to the trace are requests, and [put_] is
    where it was unless it sat on the physical end and a flush wrapped
    it. *)
Theorem WaitForAvailableEntries_fits (fuel : nat) (count : Z) (w w' : World C) :
  let w1 := snd (AllocateRingBuffer K w) in
  int32 (put_ (helper w1) + count) <= total_entry_count_ (helper w1) ->
  WaitForAvailableEntries K fuel count w = Some w' ->
  extends is_call w1 w' /\ put_kept w1 w'.
Proof.
  cbv zeta. intros Hfit. unfold WaitForAvailableEntries.
  destruct (negb (usable (snd (AllocateRingBuffer K w)))).
  - intros H. injection H as <-.
    split; [apply extends_refl | apply put_kept_refl].
  - unfold wrap_around.
    replace (int32 _ >? _) with false
      by (symmetry; rewrite Z.gtb_ltb; apply Z.ltb_ge; exact Hfit).
    apply get_entries_spec.
Qed.

(** ** Flushing twice *)

Lemma wrap_put_fixed (w : World C) :
  put_ (helper w) = 0 \/ put_ (helper w) <> total_entry_count_ (helper w) ->
  wrap_put w = w.
Proof.
  unfold wrap_put. intros H.
  destruct (put_ (helper w) =? total_entry_count_ (helper w)) eqn:E;
    [| reflexivity].
  apply Z.eqb_eq in E. destruct H as [H0 | Hne]; [| congruence].
  destruct w as [h c t]. destruct h. cbn in *. subst. reflexivity.
Qed.

Lemma wrap_put_settled (w : World C) :
  put_ (helper (wrap_put w)) = 0 \/
  put_ (helper (wrap_put w)) <> total_entry_count_ (helper (wrap_put w)).
Proof.
  unfold wrap_put.
  destruct (put_ (helper w) =? total_entry_count_ (helper w)) eqn:E.
  - left. reflexivity.
  - right. apply Z.eqb_neq. exact E.
Qed.

Lemma Flush_nothing_to_do (w : World C) :
  put_ (helper w) = 0 \/ put_ (helper w) <> total_entry_count_ (helper w) ->
  last_put_sent_ (helper w) = put_ (helper w) ->
  Flush K w = w.
Proof.
  intros Hp Hs. unfold Flush. rewrite (wrap_put_fixed w Hp), Hs, Z.eqb_refl.
  rewrite andb_false_r. reflexivity.
Qed.

Lemma Flush_settles (w : World C) :
  (put_ (helper (Flush K w)) = 0 \/
   put_ (helper (Flush K w)) <> total_entry_count_ (helper (Flush K w))).
Proof.
  rewrite Flush_put, (steady_total (Flush_steady K w)),
    <- (steady_total (wrap_put_steady w)).
  apply wrap_put_settled.
Qed.

Lemma Flush_sent_or_not (w : World C) :
  last_put_sent_ (helper (Flush K w)) = put_ (helper (Flush K w)) \/
  Flush K w = wrap_put w /\
  usable (wrap_put w)
  && negb (last_put_sent_ (helper (wrap_put w))
           =? put_ (helper (wrap_put w))) = false.
Proof.
  unfold Flush.
  destruct (usable (wrap_put w) && negb (_ =? _)) eqn:E.
  - left. rewrite Calc_last_put_sent, Calc_put. reflexivity.
  - right. split; reflexivity.
Qed.

(** X11.  Flushing twice is flushing once: a [Flush] right after a [Flush],
    and a [Flush] right after a [FlushSync] on a usable helper, finds no
    unsent work, sends nothing and changes nothing. *)
Theorem Flush_idempotent (w : World C) :
  Flush K (Flush K w) = Flush K w /\
  (usable w = true ->
   Flush K (snd (FlushSync K w)) = snd (FlushSync K w)).
Proof.
  split.
  - destruct (Flush_sent_or_not w) as [Hs | [Hf E]].
    + apply Flush_nothing_to_do; [apply Flush_settles | exact Hs].
    + rewrite Hf. unfold Flush.
      rewrite (wrap_put_fixed _ (wrap_put_settled w)), E. reflexivity.
  - intros Hu. apply Flush_nothing_to_do.
    + rewrite FlushSync_put, Hu, (steady_total (FlushSync_steady K w)),
        <- (steady_total (wrap_put_steady w)).
      apply wrap_put_settled.
    + unfold FlushSync. rewrite Hu. cbn [negb snd].
      rewrite Calc_last_put_sent, Calc_put. reflexivity.
Qed.

(** X12.  [flush_generation_] counts the requests: [Flush] leaves it alone
    when it sends nothing, and advances it by one (modulo [2^32]), to a
    different value, when it sends its request; [FlushSync] on a usable
    helper always advances it. *)
Theorem flush_generation_counts_requests (w : World C) :
  0 <= flush_generation_ (helper w) < 2 ^ 32 ->
  let g := flush_generation_ (helper w) in
  (trace (Flush K w) = trace w /\
   flush_generation_ (helper (Flush K w)) = g
   \/
   trace (Flush K w) = trace w ++ [CallFlush (put_ (helper (wrap_put w)))] /\
   flush_generation_ (helper (Flush K w)) = (g + 1) mod 2 ^ 32 /\
   flush_generation_ (helper (Flush K w)) <> g) /\
  (usable w = true ->
   flush_generation_ (helper (snd (FlushSync K w))) = (g + 1) mod 2 ^ 32 /\
   flush_generation_ (helper (snd (FlushSync K w))) <> g).
Proof.
  intros Hg. cbv zeta.
  assert (Hne : (flush_generation_ (helper w) + 1) mod 2 ^ 32
                <> flush_generation_ (helper w)).
  { destruct (Z.eq_dec (flush_generation_ (helper w)) (2 ^ 32 - 1)) as [-> | H].
    - discriminate.
    - rewrite Z.mod_small by lia. lia. }
  assert (Hw : flush_generation_ (helper (wrap_put w))
               = flush_generation_ (helper w))
    by (unfold wrap_put; destruct (_ =? _); reflexivity).
  split.
  - unfold Flush.
    destruct (usable (wrap_put w) && negb (_ =? _)).
    + right.
      match goal with
      | |- context [CalcImmediateEntries K 0 ?x] =>
          destruct (CalcImmediateEntries_frame K 0 x) as [m ->]
      end.
      cbn. unfold read_clock. cbn. rewrite wrap_put_trace, Hw.
      unfold uint32. repeat split. exact Hne.
    + left. split; [apply wrap_put_trace | exact Hw].
  - intros Hu. unfold FlushSync. rewrite Hu. cbn [negb snd].
    match goal with
    | |- context [CalcImmediateEntries K 0 ?x] =>
        destruct (CalcImmediateEntries_frame K 0 x) as [m ->]
    end.
    cbn. unfold read_clock. cbn. rewrite Hw.
    unfold uint32. split; [reflexivity | exact Hne].
Qed.

(** ** FreeRingBuffer *)

(** X13.  [FreeRingBuffer] returns exactly when the ring is drained
    ([put == get]) or the service is in error; then no ring is installed
    afterwards.  Otherwise its [CHECK] stops the process before anything is
    sent: the ring, with its unconsumed commands, is not destroyed. *)
Theorem FreeRingBuffer_guard (w : World C) :
  let ok :=
    put_ (helper w) = get_offset w \/
    error.IsError (error_ (GetLastState (command_buffer_ w))) = true in
  (ok ->
   FreeRingBuffer K w = (Returned, FreeResources K w) /\
   HaveRingBuffer (snd (FreeRingBuffer K w)) = false) /\
  (~ ok ->
   FreeRingBuffer K w = (Aborted, emit LogFatal w) /\
   HaveRingBuffer (snd (FreeRingBuffer K w)) = HaveRingBuffer w).
Proof.
  cbv zeta. unfold FreeRingBuffer. split.
  - intros Hok.
    replace ((put_ (helper w) =? get_offset w)
             || error.IsError (error_ (GetLastState (command_buffer_ w))))
      with true.
    + cbn [snd]. split; [reflexivity |].
      unfold FreeResources. destruct (HaveRingBuffer w) eqn:Hr; [| exact Hr].
      rewrite Calc_no_ring by reflexivity. reflexivity.
    + symmetry. apply orb_true_iff.
      destruct Hok as [H | H]; [left; apply Z.eqb_eq; exact H | right; exact H].
  - intros Hno.
    replace ((put_ (helper w) =? get_offset w)
             || error.IsError (error_ (GetLastState (command_buffer_ w))))
      with false.
    + cbn [snd]. split; reflexivity.
    + symmetry. apply orb_false_iff. split.
      * apply Z.eqb_neq. intros H. apply Hno. left. exact H.
      * apply not_true_is_false. intros H. apply Hno. right. exact H.
Qed.

(** ** The context-lost flag *)

Lemma steady_context_lost {w w' : World C} :
  steady w w' -> context_lost_ (helper w') = context_lost_ (helper w).
Proof. unfold steady, core. congruence. Qed.

Lemma Allocate_context_lost (w : World C) :
  context_lost_ (helper (snd (AllocateRingBuffer K w)))
  = context_lost_ (helper w).
Proof.
  unfold AllocateRingBuffer, ClearUsable.
  destruct (negb (usable w)); [reflexivity |].
  destruct (HaveRingBuffer w); [reflexivity |].
  destruct (_ <? 0);
    [cbn [snd]; now rewrite (steady_context_lost (Calc_steady K 0 _)) |].
  destruct (_ >? _); cbn [snd];
    now rewrite (steady_context_lost (Calc_steady K 0 _)).
Qed.

Lemma WaitForAvailableEntries_context_lost
  (fuel : nat) (count : Z) (w w' : World C) :
  WaitForAvailableEntries K fuel count w = Some w' ->
  context_lost_ (helper w') = context_lost_ (helper w).
Proof.
  unfold WaitForAvailableEntries.
  destruct (negb (usable (snd (AllocateRingBuffer K w)))).
  - intros H. injection H as <-. apply Allocate_context_lost.
  - destruct (wrap_around K fuel count _) as [[[|] w2] |] eqn:E;
      try discriminate; intros H.
    + rewrite (steady_context_lost (get_entries_steady K H)).
      rewrite (steady_context_lost (wrap_around_steady K E)).
      apply Allocate_context_lost.
    + injection H as <-.
      rewrite (steady_context_lost (wrap_around_steady K E)).
      apply Allocate_context_lost.
Qed.

Lemma GetSpace_context_lost (fuel : nat) (n : Z) (w : World C) r w' :
  GetSpace K fuel n w = Some (r, w') ->
  context_lost_ (helper w') = context_lost_ (helper w).
Proof.
  unfold GetSpace.
  destruct (n >? immediate_entry_count_ (helper w)).
  - destruct (WaitForAvailableEntries K fuel n w) as [w1 |] eqn:E;
      [| discriminate].
    pose proof (WaitForAvailableEntries_context_lost _ _ _ _ E) as Hw.
    destruct (n >? immediate_entry_count_ (helper w1));
      intros H; injection H as <- <-; exact Hw.
  - intros H. injection H as <- <-. reflexivity.
Qed.

Lemma InsertToken_context_lost (fuel : nat) (w : World C) v w' :
  InsertToken K fuel w = Some (v, w') ->
  context_lost_ (helper w') = context_lost_ (helper w).
Proof.
  unfold InsertToken.
  destruct (negb (usable (snd (AllocateRingBuffer K w)))).
  - intros H. injection H as <- <-. apply Allocate_context_lost.
  - destruct (GetSpace K fuel (SetToken_entries K) _)
      as [[[cmd |] w3] |] eqn:E; [| | discriminate].
    + pose proof (GetSpace_context_lost _ _ _ _ _ E) as Hs. cbn in Hs.
      rewrite Allocate_context_lost in Hs.
      destruct (token_ (helper (write_set_token cmd w3)) =? 0).
      * destruct (Finish K fuel (write_set_token cmd w3))
          as [[ok w5] |] eqn:EF; [| discriminate].
        intros H. injection H as <- <-.
        rewrite (steady_context_lost (Finish_steady K EF)). exact Hs.
      * intros H. injection H as <- <-. exact Hs.
    + pose proof (GetSpace_context_lost _ _ _ _ _ E) as Hs. cbn in Hs.
      rewrite Allocate_context_lost in Hs.
      intros H. injection H as <- <-. exact Hs.
Qed.

Lemma run_op_context_lost (fuel : nat) (op : Op) (w w' : World C) :
  run_op K fuel op w = Some w' ->
  context_lost_ (helper w') =
    match op with
    | OpIsContextLost =>
        context_lost_ (helper w)
        || error.IsError (GetLastError (command_buffer_ w))
    | _ => context_lost_ (helper w)
    end.
Proof.
  destruct op; cbn [run_op option_map]; intros H;
    try (injection H as <-).
  - unfold SetAutomaticFlushes.
    now rewrite (steady_context_lost (Calc_steady K 0 _)).
  - unfold IsContextLost.
    destruct (context_lost_ (helper w)) eqn:E; cbn; [exact E | reflexivity].
  - apply (steady_context_lost (Calc_steady K _ _)).
  - apply Allocate_context_lost.
  - unfold FreeResources. destruct (HaveRingBuffer w); [| reflexivity].
    now rewrite (steady_context_lost (Calc_steady K 0 _)).
  - unfold FreeRingBuffer, FreeResources.
    destruct (_ || _); cbn [snd]; [| reflexivity].
    destruct (HaveRingBuffer w); [| reflexivity].
    now rewrite (steady_context_lost (Calc_steady K 0 _)).
  - unfold Initialize. now rewrite Allocate_context_lost.
  - apply (steady_context_lost (FlushSync_steady K w)).
  - apply (steady_context_lost (Flush_steady K w)).
  - apply (steady_context_lost (PeriodicFlushCheck_steady K w)).
  - destruct (Finish K fuel w) as [[ok w1] |] eqn:E; [| discriminate].
    injection H as <-. apply (steady_context_lost (Finish_steady K E)).
  - destruct (InsertToken K fuel w) as [[v w1] |] eqn:E; [| discriminate].
    injection H as <-. apply (InsertToken_context_lost _ _ _ _ E).
  - destruct (WaitForToken K fuel _ w) as [[e w1] |] eqn:E; [| discriminate].
    injection H as <-. apply (steady_context_lost (WaitForToken_steady K E)).
  - apply (WaitForAvailableEntries_context_lost _ _ _ _ H).
  - destruct (GetSpace K fuel entries w) as [[r w1] |] eqn:E; [| discriminate].
    injection H as <-. apply (GetSpace_context_lost _ _ _ _ _ E).
  - unfold ClearUsable.
    now rewrite (steady_context_lost (Calc_steady K 0 _)).
Qed.

(** X14.  [context_lost_] is sticky and only [IsContextLost] sets it: every
    other operation leaves the flag as it is, [IsContextLost] stores and
    returns "was lost already, or the [CommandBuffer]'s last error is an
    error", and once the flag is set it stays set through every sequence of
    operations, after which [IsContextLost] answers [true] without looking
    at the [CommandBuffer]. *)
Theorem context_lost_is_sticky :
  (forall fuel op (w w' : World C),
     run_op K fuel op w = Some w' -> op <> OpIsContextLost ->
     context_lost_ (helper w') = context_lost_ (helper w)) /\
  (forall w : World C,
     fst (IsContextLost w) =
       context_lost_ (helper w)
       || error.IsError (GetLastError (command_buffer_ w)) /\
     context_lost_ (helper (snd (IsContextLost w))) = fst (IsContextLost w)) /\
  (forall fuel ops (w w' : World C),
     run_ops K fuel ops w = Some w' ->
     context_lost_ (helper w) = true ->
     context_lost_ (helper w') = true /\
     forall c, IsContextLost (with_command_buffer c w')
               = (true, with_command_buffer c w')).
Proof.
  split; [| split].
  - intros fuel op w w' H Hne.
    rewrite (run_op_context_lost _ _ _ _ H).
    destruct op; try reflexivity. congruence.
  - intros w. unfold IsContextLost.
    destruct (context_lost_ (helper w)) eqn:E; cbn; [rewrite E |];
      split; reflexivity.
  - intros fuel ops.
    assert (Hkeep : forall (w w' : World C),
               run_ops K fuel ops w = Some w' ->
               context_lost_ (helper w) = true ->
               context_lost_ (helper w') = true).
    { induction ops as [| op ops IH]; intros w w' H Hl; cbn [run_ops] in H.
      - injection H as <-. exact Hl.
      - destruct (run_op K fuel op w) as [w1 |] eqn:E; [| discriminate].
        eapply IH; [exact H |].
        rewrite (run_op_context_lost _ _ _ _ E), Hl.
        destruct op; reflexivity. }
    intros w w' H Hl. pose proof (Hkeep w w' H Hl) as Hl'.
    split; [exact Hl' |].
    intros c. unfold IsContextLost. cbn. rewrite Hl'. cbn. rewrite Hl'.
    reflexivity.
Qed.

(** ** The token command *)

Lemma filter_excluded (P Q : Event -> bool) (evs : list Event) :
  (forall e, P e = true -> Q e = false) ->
  Forall (fun e => P e = true) evs -> filter Q evs = [].
Proof.
  intros HPQ. induction 1 as [| e evs He _ IH]; [reflexivity |].
  cbn. rewrite (HPQ e He). exact IH.
Qed.

Lemma Allocate_requests (w : World C) :
  extends is_call w (snd (AllocateRingBuffer K w)).
Proof.
  unfold AllocateRingBuffer.
  destruct (negb (usable w)); [apply extends_refl |].
  destruct (HaveRingBuffer w); [apply extends_refl |].
  destruct (_ <? 0).
  { cbn [snd]. eexists. rewrite ClearUsable_trace. cbn.
    split; [reflexivity | repeat constructor]. }
  destruct (_ >? _); cbn [snd]; eexists.
  - rewrite ClearUsable_trace. cbn. rewrite <- !app_assoc.
    split; [reflexivity | repeat constructor].
  - rewrite Calc_trace. cbn. rewrite <- !app_assoc.
    split; [reflexivity | repeat constructor].
Qed.

Lemma insert_noops_records (fuel : nat) :
  forall (n : Z) (w w' : World C),
    insert_noops K fuel n w = Some w' -> extends not_set_token w w'.
Proof.
  induction fuel as [| fuel IH]; intros n w w' H; cbn [insert_noops] in H;
    destruct (n >? 0);
    try discriminate;
    try (injection H as <-; apply extends_refl).
  eapply extends_trans; [| eapply IH; exact H].
  eexists. split; [reflexivity | repeat constructor].
Qed.

Lemma Finish_requests (fuel : nat) (w : World C) ok w' :
  Finish K fuel w = Some (ok, w') -> extends is_flush_sync w w'.
Proof.
  unfold Finish.
  destruct (negb (usable w));
    [intros H; injection H as <- <-; apply extends_refl |].
  destruct (_ =? _);
    [intros H; injection H as <- <-; apply extends_refl |].
  revert w. induction fuel as [| fuel IH]; intros w H; [discriminate |].
  cbn [Finish_loop] in H.
  destruct (negb (fst (FlushSync K w))).
  - injection H as <- <-. apply FlushSync_extends.
  - destruct (negb (_ =? _)).
    + eapply extends_trans; [apply FlushSync_extends | apply IH; exact H].
    + injection H as <- <-. apply FlushSync_extends.
Qed.

Lemma call_not_set_token (e : Event) :
  is_call e = true -> not_set_token e = true.
Proof. destruct e; cbn; congruence. Qed.

Lemma flush_sync_not_set_token (e : Event) :
  is_flush_sync e = true -> not_set_token e = true.
Proof. destruct e; cbn; congruence. Qed.

Lemma WaitForAvailableEntries_records
  (fuel : nat) (count : Z) (w w' : World C) :
  WaitForAvailableEntries K fuel count w = Some w' ->
  extends not_set_token w w'.
Proof.
  unfold WaitForAvailableEntries. intros H.
  eapply extends_trans;
    [eapply extends_weaken; [apply call_not_set_token | apply Allocate_requests]
    |].
  destruct (negb (usable (snd (AllocateRingBuffer K w))));
    [injection H as <-; apply extends_refl |].
  set (w1 := snd (AllocateRingBuffer K w)) in *.
  assert (Hwrap : forall b w2, wrap_around K fuel count w1 = Some (b, w2) ->
                               extends not_set_token w1 w2).
  { unfold wrap_around. intros b w2.
    destruct (int32 _ >? _);
      [| intros E; injection E as <- <-; apply extends_refl].
    destruct (wait_get_wrapped K fuel w1) as [[[|] w3] |] eqn:E1;
      try discriminate.
    - destruct (insert_noops K fuel _ w3) as [w4 |] eqn:E2; [| discriminate].
      intros E. injection E as <- <-.
      eapply extends_trans.
      + eapply extends_weaken; [apply flush_sync_not_set_token |].
        apply (wait_get_wrapped_spec K _ _ _ _ E1).
      + destruct (insert_noops_records _ _ _ _ E2) as (evs & Ht & Ha).
        exists evs. split; assumption.
    - intros E. injection E as <- <-.
      eapply extends_weaken; [apply flush_sync_not_set_token |].
      apply (wait_get_wrapped_spec K _ _ _ _ E1). }
  destruct (wrap_around K fuel count w1) as [[[|] w2] |] eqn:E;
    [| | discriminate].
  - eapply extends_trans; [apply (Hwrap _ _ eq_refl) |].
    eapply extends_weaken; [apply call_not_set_token |].
    apply (get_entries_spec K _ _ _ _ H).
  - injection H as <-. apply (Hwrap _ _ eq_refl).
Qed.

Lemma GetSpace_records (fuel : nat) (n : Z) (w : World C) r w' :
  GetSpace K fuel n w = Some (r, w') -> extends not_set_token w w'.
Proof.
  unfold GetSpace.
  destruct (n >? immediate_entry_count_ (helper w)).
  - destruct (WaitForAvailableEntries K fuel n w) as [w1 |] eqn:E;
      [| discriminate].
    destruct (WaitForAvailableEntries_records _ _ _ _ E) as (evs & Ht & Ha).
    destruct (n >? immediate_entry_count_ (helper w1));
      intros H; injection H as <- <-; exists evs; split; assumption.
  - intros H. injection H as <- <-. exists [].
    split; [cbn; now rewrite app_nil_r | constructor].
Qed.

(** X15.  The token command carries the token returned: the trace of a call
    of [InsertToken] gains at most one token command, and when it gains
    one, its value is the value [InsertToken] returns. *)
Theorem InsertToken_token_command (fuel : nat) (w : World C) v w' :
  InsertToken K fuel w = Some (v, w') ->
  exists evs,
    trace w' = trace w ++ evs /\
    (filter is_set_token evs = [] \/
     exists offset, filter is_set_token evs = [WroteSetToken offset v]).
Proof.
  assert (Hnone : forall evs,
             Forall (fun e => not_set_token e = true) evs ->
             filter is_set_token evs = []).
  { intros evs. apply filter_excluded. intros e. unfold not_set_token.
    apply negb_true_iff. }
  unfold InsertToken. intros H.
  destruct (Allocate_requests w) as (ev1 & Ht1 & Ha1).
  apply (Forall_impl _ call_not_set_token) in Ha1.
  set (w1 := snd (AllocateRingBuffer K w)) in *.
  destruct (negb (usable w1)).
  { injection H as <- <-. exists ev1. split; [exact Ht1 |].
    left. apply Hnone. exact Ha1. }
  destruct (GetSpace K fuel (SetToken_entries K) _)
    as [[[cmd |] w3] |] eqn:E; [| | discriminate].
  - destruct (GetSpace_records _ _ _ _ _ E) as (ev2 & Ht2 & Ha2).
    cbn [trace upd] in Ht2.
    assert (Hdone : forall ev3 (w5 : World C),
               trace w5 = trace (write_set_token cmd w3) ++ ev3 ->
               Forall (fun e => not_set_token e = true) ev3 ->
               token_ (helper w5) = token_ (helper w3) ->
               exists evs,
                 trace w5 = trace w ++ evs /\
                 (filter is_set_token evs = [] \/
                  exists offset,
                    filter is_set_token evs
                    = [WroteSetToken offset (token_ (helper w5))])).
    { intros ev3 w5 Ht3 Ha3 Htok.
      exists (ev1 ++ ev2 ++ [WroteSetToken cmd (token_ (helper w3))] ++ ev3).
      split.
      - rewrite Ht3. cbn [trace write_set_token emit].
        rewrite Ht2, Ht1, <- !app_assoc. reflexivity.
      - right. exists cmd.
        rewrite !filter_app, (Hnone _ Ha1), (Hnone _ Ha2), (Hnone _ Ha3).
        cbn. rewrite Htok. reflexivity. }
    destruct (token_ (helper (write_set_token cmd w3)) =? 0).
    + destruct (Finish K fuel (write_set_token cmd w3))
        as [[ok w5] |] eqn:EF; [| discriminate].
      injection H as <- <-.
      destruct (Finish_requests _ _ _ _ EF) as (ev3 & Ht3 & Ha3).
      apply (Hdone ev3 w5 Ht3).
      * eapply Forall_impl; [apply flush_sync_not_set_token | exact Ha3].
      * apply (steady_token (Finish_steady K EF)).
    + injection H as <- <-.
      apply (Hdone [] (write_set_token cmd w3)).
      * now rewrite app_nil_r.
      * constructor.
      * reflexivity.
  - destruct (GetSpace_records _ _ _ _ _ E) as (ev2 & Ht2 & Ha2).
    cbn [trace upd] in Ht2.
    injection H as <- <-. exists (ev1 ++ ev2). split.
    + rewrite Ht2, Ht1, app_assoc. reflexivity.
    + left. rewrite filter_app, (Hnone _ Ha1), (Hnone _ Ha2). reflexivity.
Qed.

(** ** The entries granted lie inside the ring *)

Lemma Calc_after_upd (n m : Z) (w : World C) :
  CalcImmediateEntries K n (upd (set_immediate_entry_count_ m) w)
  = CalcImmediateEntries K n w.
Proof. reflexivity. Qed.

Lemma Calc_is_current (n : Z) (w : World C) :
  count_is_current K (CalcImmediateEntries K n w).
Proof.
  exists n. destruct (CalcImmediateEntries_frame K n w) as [m Hm].
  rewrite Hm at 1. rewrite Calc_after_upd. reflexivity.
Qed.

Lemma failed_flush_is_current (w' : World C) :
  stopped_by_failed_flush K w' -> usable w' = true ->
  count_is_current K w'.
Proof.
  intros (w0 & _ & ->) Hu.
  rewrite (steady_usable (FlushSync_steady K w0)) in Hu.
  unfold FlushSync. rewrite Hu. cbn [negb snd]. apply Calc_is_current.
Qed.

Lemma wait_entries_current (fuel : nat) (count : Z) :
  forall w w' : World C,
    wait_entries K fuel count w = Some w' ->
    count_is_current K w -> count_is_current K w'.
Proof.
  induction fuel as [| fuel IH]; intros w w' H Hc; cbn [wait_entries] in H;
    destruct (immediate_entry_count_ (helper w) <? count);
    try discriminate;
    try (injection H as <-; exact Hc).
  destruct (negb (fst (FlushSync K w))).
  - injection H as <-. unfold FlushSync.
    destruct (negb (usable w)); [exact Hc | apply Calc_is_current].
  - eapply IH; [exact H | apply Calc_is_current].
Qed.

Lemma wrap_around_failed (fuel : nat) (count : Z) (w w' : World C) :
  wrap_around K fuel count w = Some (false, w') ->
  stopped_by_failed_flush K w'.
Proof.
  unfold wrap_around.
  destruct (int32 _ >? _); [| discriminate].
  destruct (wait_get_wrapped K fuel w) as [[[|] w3] |] eqn:E1;
    try discriminate.
  - destruct (insert_noops K fuel _ w3); discriminate.
  - intros E. injection E as <-. eapply wait_get_wrapped_failed. exact E1.
Qed.

Lemma WaitForAvailableEntries_current
  (fuel : nat) (count : Z) (w w' : World C) :
  WaitForAvailableEntries K fuel count w = Some w' ->
  usable (snd (AllocateRingBuffer K w)) = true ->
  count_is_current K w'.
Proof.
  intros H Hu.
  pose proof (WaitForAvailableEntries_usable K H) as Hu'. rewrite Hu in Hu'.
  unfold WaitForAvailableEntries in H. rewrite Hu in H. cbn [negb] in H.
  destruct (wrap_around K fuel count _) as [[[|] w2] |] eqn:E;
    [| | discriminate].
  - unfold get_entries in H.
    destruct (_ <? count);
      [| injection H as <-; apply Calc_is_current].
    destruct (_ <? count);
      [| injection H as <-; apply Calc_is_current].
    eapply wait_entries_current; [exact H | apply Calc_is_current].
  - injection H as <-.
    apply failed_flush_is_current; [| exact Hu'].
    eapply wrap_around_failed. exact E.
Qed.

(** X16.  What [WaitForAvailableEntries] leaves as the writable count is
    current, and so the entries it grants lie inside the ring: when the
    service's [get] is inside the ring and [count] entries are writable on
    return, they end at or before the physical end and strictly before
    [get] when [get] is ahead of [put_]. *)
Theorem WaitForAvailableEntries_grants_inside_ring
  (fuel : nat) (count : Z) (w w' : World C) :
  WaitForAvailableEntries K fuel count w = Some w' ->
  usable (snd (AllocateRingBuffer K w)) = true ->
  cursors_in_range w' -> divisors_positive K ->
  get_offset w' <= total_entry_count_ (helper w') ->
  count <= immediate_entry_count_ (helper w') ->
  count_is_current K w' /\
  put_ (helper w') + count <= total_entry_count_ (helper w') /\
  (get_offset w' > put_ (helper w') ->
   put_ (helper w') + count < get_offset w').
Proof.
  intros H Hu Hc Hd Hg Hcount.
  pose proof (WaitForAvailableEntries_current _ _ _ _ H Hu) as Hcur.
  split; [exact Hcur |].
  destruct Hcur as [n Hn].
  destruct (stored_count_within_ring n w' Hc Hd Hg) as (Hend & Hget & _).
  rewrite Hn in Hend, Hget. split; [lia |].
  intros Hahead. specialize (Hget Hahead). lia.
Qed.

End Further.

(** * The further properties on concrete runs *)

Lemma FreeResources_idempotent_idle_ring :
  HaveRingBuffer Scripted.idle_ring = true /\
  trace (FreeResources Scripted.constants Scripted.idle_ring)
  = [CallDestroyTransferBuffer 1] /\
  FreeResources Scripted.constants
    (FreeResources Scripted.constants Scripted.idle_ring)
  = FreeResources Scripted.constants Scripted.idle_ring /\
  immediate_entry_count_
    (helper (FreeResources Scripted.constants Scripted.idle_ring)) = 0.
Proof.
  destruct (FreeResources_idempotent Scripted.constants Scripted.idle_ring)
    as (_ & Hi & Ht & H0).
  split; [reflexivity |]. split; [exact Ht |]. split; [exact Hi |].
  apply H0. reflexivity.
Defined.

Lemma AllocateRingBuffer_succeeds_iff_granted :
  usable Scripted.granted = true /\
  HaveRingBuffer Scripted.granted = false /\
  0 < sizeof_CommandBufferEntry Scripted.constants /\
  0 <= ring_buffer_size_ (helper Scripted.granted) < 2 ^ 31 /\
  divisors_positive Scripted.constants /\
  fst (AllocateRingBuffer Scripted.constants Scripted.granted) = true /\
  total_entry_count_
    (helper (snd (AllocateRingBuffer Scripted.constants Scripted.granted)))
  = 8.
Proof.
  split; [reflexivity |]. split; [reflexivity |].
  split; [reflexivity |]. split; [cbn; lia |].
  split; [unfold divisors_positive; cbn; lia |].
  destruct (AllocateRingBuffer_succeeds_iff Scripted.constants
              Scripted.granted) as (_ & Hiff & Hpost).
  - reflexivity.
  - reflexivity.
  - reflexivity.
  - cbn. lia.
  - intros _. unfold divisors_positive. cbn. lia.
  - assert (Hok : fst (AllocateRingBuffer Scripted.constants
                         Scripted.granted) = true).
    { apply Hiff. split; vm_compute; discriminate. }
    split; [exact Hok |].
    destruct (Hpost Hok) as (_ & _ & _ & Htotal & _). exact Htotal.
Defined.

Lemma AllocateRingBuffer_oversize_too_small :
  usable Scripted.too_small = true /\
  HaveRingBuffer Scripted.too_small = false /\
  0 < sizeof_CommandBufferEntry Scripted.constants /\
  0 <= ring_buffer_size_ (helper Scripted.too_small) < 2 ^ 31 /\
  0 <= 1 /\
  32 / 4 > 4 /\
  usable (snd (AllocateRingBuffer Scripted.constants Scripted.too_small))
  = false /\
  HaveRingBuffer
    (snd (AllocateRingBuffer Scripted.constants Scripted.too_small))
  = true.
Proof.
  split; [reflexivity |]. split; [reflexivity |].
  split; [reflexivity |]. split; [cbn; lia |].
  split; [lia |]. split; [reflexivity |].
  destruct (AllocateRingBuffer_oversize Scripted.constants Scripted.too_small)
    as (_ & Hu & Hr & _).
  - reflexivity.
  - reflexivity.
  - reflexivity.
  - cbn. lia.
  - vm_compute. discriminate.
  - reflexivity.
  - split; [exact Hu | exact Hr].
Defined.

Lemma unusable_helper_is_inert_unsent_unusable :
  usable Scripted.unsent_unusable = false /\
  InsertToken Scripted.constants 5 Scripted.unsent_unusable
  = Some (0, Scripted.unsent_unusable) /\
  WaitForAvailableEntries Scripted.constants 5 3 Scripted.unsent_unusable
  = Some Scripted.unsent_unusable.
Proof.
  split; [reflexivity |].
  destruct (unusable_helper_is_inert Scripted.constants 5
              Scripted.unsent_unusable eq_refl)
    as (_ & _ & _ & Hi & Hw & _).
  split; [exact Hi | apply Hw].
Defined.

Lemma CalcImmediateEntries_within_ring_get_ahead :
  cursors_in_range Scripted.get_ahead /\
  divisors_positive Scripted.constants /\
  get_offset Scripted.get_ahead
  <= total_entry_count_ (helper Scripted.get_ahead) /\
  put_ (helper Scripted.get_ahead)
  + immediate_entry_count_
      (helper (CalcImmediateEntries Scripted.constants 5 Scripted.get_ahead))
  < get_offset Scripted.get_ahead.
Proof.
  assert (Hc : cursors_in_range Scripted.get_ahead)
    by (unfold cursors_in_range, int32_range; cbn; lia).
  assert (Hd : divisors_positive Scripted.constants)
    by (unfold divisors_positive; cbn; lia).
  assert (Hg : get_offset Scripted.get_ahead
               <= total_entry_count_ (helper Scripted.get_ahead))
    by (cbn; lia).
  split; [exact Hc |]. split; [exact Hd |]. split; [exact Hg |].
  destruct (CalcImmediateEntries_within_ring Scripted.constants 5
              Scripted.get_ahead Hc Hd Hg) as (_ & H & _).
  apply H. reflexivity.
Defined.

Lemma CalcImmediateEntries_honours_waiting_count_scenario_A_auto :
  usable Scripted.scenario_A_auto = true /\
  HaveRingBuffer Scripted.scenario_A_auto = true /\
  cursors_in_range Scripted.scenario_A_auto /\
  divisors_positive Scripted.constants /\
  5 <= 8 - 3 /\
  5 <= immediate_entry_count_
         (helper (CalcImmediateEntries Scripted.constants 5
                    Scripted.scenario_A_auto)).
Proof.
  assert (Hc : cursors_in_range Scripted.scenario_A_auto)
    by (unfold cursors_in_range, int32_range; cbn; lia).
  assert (Hd : divisors_positive Scripted.constants)
    by (unfold divisors_positive; cbn; lia).
  split; [reflexivity |]. split; [reflexivity |].
  split; [exact Hc |]. split; [exact Hd |]. split; [lia |].
  destruct (CalcImmediateEntries_honours_waiting_count Scripted.constants 5
              Scripted.scenario_A_auto eq_refl eq_refl Hc Hd) as [_ H].
  - cbn. lia.
  - apply H. reflexivity.
Defined.

Lemma WaitForAvailableEntries_post_scenario_B :
  WaitForAvailableEntries Scripted.constants 5 4 Scripted.scenario_B
  = Some Scripted.scenario_B_end /\
  usable (snd (AllocateRingBuffer Scripted.constants Scripted.scenario_B))
  = true /\
  usable Scripted.scenario_B_end = true /\
  (4 <= immediate_entry_count_ (helper Scripted.scenario_B_end) \/
   stopped_by_failed_flush Scripted.constants Scripted.scenario_B_end).
Proof.
  assert (Hrun : WaitForAvailableEntries Scripted.constants 5 4
                   Scripted.scenario_B
                 = Some Scripted.scenario_B_end)
    by (vm_compute; reflexivity).
  split; [exact Hrun |]. split; [reflexivity |].
  exact (WaitForAvailableEntries_post Scripted.constants 5 4
           Scripted.scenario_B Scripted.scenario_B_end Hrun eq_refl).
Defined.

Lemma WaitForToken_post_token_wait :
  WaitForToken Scripted.constants 5 1 Scripted.token_wait
  = Some (Returned, Scripted.token_wait_end) /\
  usable Scripted.token_wait = true /\
  HaveRingBuffer Scripted.token_wait = true /\
  0 <= 1 <= token_ (helper Scripted.token_wait) /\
  (1 <= last_token_read Scripted.token_wait_end \/
   stopped_by_failed_flush Scripted.constants Scripted.token_wait_end).
Proof.
  assert (Hrun : WaitForToken Scripted.constants 5 1 Scripted.token_wait
                 = Some (Returned, Scripted.token_wait_end))
    by (vm_compute; reflexivity).
  assert (Ht : 0 <= 1 <= token_ (helper Scripted.token_wait)) by (cbn; lia).
  split; [exact Hrun |]. split; [reflexivity |]. split; [reflexivity |].
  split; [exact Ht |].
  exact (WaitForToken_post Scripted.constants 5 1 Scripted.token_wait
           Scripted.token_wait_end Hrun eq_refl eq_refl Ht).
Defined.

Lemma WaitForAvailableEntries_fits_room :
  int32 (2 + 3) <= 8 /\
  WaitForAvailableEntries Scripted.constants 5 3 Scripted.room
  = Some Scripted.room_end /\
  extends is_call Scripted.room Scripted.room_end /\
  put_kept Scripted.room Scripted.room_end.
Proof.
  assert (Hfit : int32 (2 + 3) <= 8) by (vm_compute; discriminate).
  assert (Hrun : WaitForAvailableEntries Scripted.constants 5 3 Scripted.room
                 = Some Scripted.room_end)
    by (vm_compute; reflexivity).
  split; [exact Hfit |]. split; [exact Hrun |].
  exact (WaitForAvailableEntries_fits Scripted.constants 5 3 Scripted.room
           Scripted.room_end Hfit Hrun).
Defined.

Lemma Flush_idempotent_three_unsent :
  usable Scripted.three_unsent = true /\
  Flush Scripted.constants
    (snd (FlushSync Scripted.constants Scripted.three_unsent))
  = snd (FlushSync Scripted.constants Scripted.three_unsent).
Proof.
  split; [reflexivity |].
  apply (proj2 (Flush_idempotent Scripted.constants Scripted.three_unsent)).
  reflexivity.
Defined.

Lemma flush_generation_counts_requests_three_unsent :
  0 <= flush_generation_ (helper Scripted.three_unsent) < 2 ^ 32 /\
  usable Scripted.three_unsent = true /\
  flush_generation_
    (helper (snd (FlushSync Scripted.constants Scripted.three_unsent)))
  = 1.
Proof.
  assert (Hg : 0 <= flush_generation_ (helper Scripted.three_unsent) < 2 ^ 32)
    by (cbn; lia).
  split; [exact Hg |]. split; [reflexivity |].
  destruct (flush_generation_counts_requests Scripted.constants
              Scripted.three_unsent Hg) as [_ H].
  destruct (H eq_refl) as [Heq _]. exact Heq.
Defined.

Lemma FreeRingBuffer_guard_three_unsent :
  ~ (put_ (helper Scripted.three_unsent) = get_offset Scripted.three_unsent \/
     error.IsError
       (error_ (GetLastState (command_buffer_ Scripted.three_unsent)))
     = true) /\
  FreeRingBuffer Scripted.constants Scripted.three_unsent
  = (Aborted, emit LogFatal Scripted.three_unsent).
Proof.
  assert (Hno : ~ (put_ (helper Scripted.three_unsent)
                   = get_offset Scripted.three_unsent \/
                   error.IsError
                     (error_ (GetLastState
                                (command_buffer_ Scripted.three_unsent)))
                   = true))
    by (vm_compute; intros [H | H]; discriminate H).
  split; [exact Hno |].
  exact (proj1 (proj2 (FreeRingBuffer_guard Scripted.constants
                         Scripted.three_unsent) Hno)).
Defined.

Lemma context_lost_is_sticky_known_lost :
  run_ops Scripted.constants 5
    [OpFreeRingBuffer; OpInsertToken; OpFlush] Scripted.known_lost
  = Some Scripted.known_lost_end /\
  context_lost_ (helper Scripted.known_lost) = true /\
  context_lost_ (helper Scripted.known_lost_end) = true.
Proof.
  assert (Hrun : run_ops Scripted.constants 5
                   [OpFreeRingBuffer; OpInsertToken; OpFlush]
                   Scripted.known_lost
                 = Some Scripted.known_lost_end)
    by (vm_compute; reflexivity).
  split; [exact Hrun |]. split; [reflexivity |].
  exact (proj1 (proj2 (proj2 (@context_lost_is_sticky _
                                Scripted.command_buffer Scripted.constants))
                  5%nat _ Scripted.known_lost Scripted.known_lost_end
                  Hrun eq_refl)).
Defined.

Lemma InsertToken_token_command_wrap_token :
  InsertToken Scripted.constants 5 Scripted.wrap_token
  = Some (0, Scripted.wrap_token_end) /\
  exists evs,
    trace Scripted.wrap_token_end = trace Scripted.wrap_token ++ evs /\
    (filter is_set_token evs = [] \/
     exists offset, filter is_set_token evs = [WroteSetToken offset 0]).
Proof.
  assert (Hrun : InsertToken Scripted.constants 5 Scripted.wrap_token
                 = Some (0, Scripted.wrap_token_end))
    by (vm_compute; reflexivity).
  split; [exact Hrun |].
  exact (InsertToken_token_command Scripted.constants 5 Scripted.wrap_token
           0 Scripted.wrap_token_end Hrun).
Defined.

Lemma WaitForAvailableEntries_grants_inside_ring_scenario_B :
  WaitForAvailableEntries Scripted.constants 5 4 Scripted.scenario_B
  = Some Scripted.scenario_B_end /\
  cursors_in_range Scripted.scenario_B_end /\
  get_offset Scripted.scenario_B_end
  <= total_entry_count_ (helper Scripted.scenario_B_end) /\
  4 <= immediate_entry_count_ (helper Scripted.scenario_B_end) /\
  put_ (helper Scripted.scenario_B_end) + 4
  <= total_entry_count_ (helper Scripted.scenario_B_end) /\
  (get_offset Scripted.scenario_B_end > put_ (helper Scripted.scenario_B_end)
   -> put_ (helper Scripted.scenario_B_end) + 4
      < get_offset Scripted.scenario_B_end).
Proof.
  assert (Hrun : WaitForAvailableEntries Scripted.constants 5 4
                   Scripted.scenario_B
                 = Some Scripted.scenario_B_end)
    by (vm_compute; reflexivity).
  assert (Hc : cursors_in_range Scripted.scenario_B_end)
    by (vm_compute; repeat split; discriminate).
  assert (Hd : divisors_positive Scripted.constants)
    by (unfold divisors_positive; cbn; lia).
  assert (Hg : get_offset Scripted.scenario_B_end
               <= total_entry_count_ (helper Scripted.scenario_B_end))
    by (vm_compute; discriminate).
  assert (Hn : 4 <= immediate_entry_count_ (helper Scripted.scenario_B_end))
    by (vm_compute; discriminate).
  split; [exact Hrun |]. split; [exact Hc |]. split; [exact Hg |].
  split; [exact Hn |].
  exact (proj2 (WaitForAvailableEntries_grants_inside_ring Scripted.constants
                  5 4 Scripted.scenario_B Scripted.scenario_B_end
                  Hrun eq_refl Hc Hd Hg Hn)).
Defined.
